(** * Parameter recommenders for fLPS and SEG

    A shallow embedding of the two programs of the repository,
    [fLPSparameters.c] and [SEGparameters.c].  Both read a target length and
    a focus from the command line, evaluate fitted power-law and logarithmic
    formulas for five coverage levels and print, per level, either the
    parameters or an NA line.

    The programs keep their working values in global variables that [main]
    assigns and [output_parameters] reads and updates; the embedding threads
    a record of those globals (and of the two output streams) through every
    statement.  Double arithmetic and the three libm functions the programs
    call are an interface, [CDouble], with two instances: IEEE binary64 and
    exact real arithmetic.  An [int] is an integer, with the 32-bit
    wrap-around written out where the programs subtract and where [sscanf]
    stores one. *)

From Stdlib Require Import ZArith QArith Reals Lra Lia List String Ascii Bool.
From Stdlib Require Import Floats.PrimFloat Floats.SpecFloat Floats.FloatOps.
From Stdlib Require Import Uint63.
Import ListNotations.

Local Open Scope string_scope.
Local Open Scope Z_scope.

(** ** The arithmetic of C doubles *)

(** What the programs do with values of type [double].  [lit q] is the
    decimal constant [q] as written in the source (a negative constant is the
    negation of a positive one, which is the same double); [of_int] is the
    conversion [(double) n]; [round] is libm's [round] (nearest integer,
    halfway cases away from zero); [to_int] is the conversion to [int]
    (truncation) that an assignment such as [big_m = round(...)] performs. *)
Class CDouble (D : Type) := {
  of_int : Z -> D;
  lit : Q -> D;
  dadd : D -> D -> D;
  dsub : D -> D -> D;
  dmul : D -> D -> D;
  ddiv : D -> D -> D;
  dgt : D -> D -> bool;
  pow : D -> D -> D;
  log : D -> D;
  round : D -> D;
  to_int : D -> Z
}.

Arguments lit {D _} _%_Q.

Infix "+~" := dadd (at level 50, left associativity).
Infix "-~" := dsub (at level 50, left associativity).
Infix "*~" := dmul (at level 40, left associativity).
Infix "/~" := ddiv (at level 40, left associativity).
Infix ">~" := dgt (at level 70, no associativity).

(** ** The arithmetic of C ints

    [int] has 32 bits.  [target_length], [small_m], [big_m] and [max_m] hold
    such values; the only [int] arithmetic of the programs that can leave the
    range is the subtraction [small_m = big_m - k] of fLPSparameters. *)

Definition in_int (z : Z) : Prop := - 2 ^ 31 <= z <= 2 ^ 31 - 1.

(** The [int] with the low 32 bits of [z].  Signed overflow is undefined in
    C; this is the two's complement result the compiled programs give. *)
Definition wrap_int (z : Z) : Z := (z + 2 ^ 31) mod 2 ^ 32 - 2 ^ 31.

Arguments wrap_int : simpl never.

(** What [sscanf(optarg, "%d", &target_length)] stores when the text of
    [optarg] starts with the decimal integer [n].  For an [n] out of the
    range of [int] the conversion is undefined in C; glibc converts with
    [strtol], which saturates at the range of the 64-bit [long], and keeps
    the low 32 bits. *)
Definition sscanf_d (n : Z) : Z :=
  wrap_int (Z.max (- 2 ^ 63) (Z.min n (2 ^ 63 - 1))).

Arguments sscanf_d : simpl never.

(** *** Exact real arithmetic

    Doubles read as real numbers, every operation exact: [log] is the
    natural logarithm and [pow x y] is [exp (y * ln x)].  These are the
    mathematical functions for positive arguments only: the programs give
    them [(double) target_length], so this reading is one of the programs
    for target lengths from 1 on, and the properties proved with it are
    about such target lengths only.  For the unset target length -1 libm's
    [pow] and [log] return a NaN, which no real number stands for; that
    case is covered by the binary64 instance. *)

(** Truncation towards zero. *)
Definition trunc_R (x : R) : Z :=
  if Rle_dec 0 x then Int_part x else - Int_part (- x).

(** [round] on the reals: halfway cases go away from zero. *)
Definition round_R (x : R) : R :=
  if Rle_dec 0 x then IZR (Int_part (x + / 2))
  else IZR (- Int_part (- x + / 2)).

Definition Rgtb (x y : R) : bool := if Rgt_dec x y then true else false.

#[export] Instance R_double : CDouble R := {
  of_int := IZR;
  lit := Q2R;
  dadd := Rplus;
  dsub := Rminus;
  dmul := Rmult;
  ddiv := Rdiv;
  dgt := Rgtb;
  pow := Rpower;
  log := ln;
  round := round_R;
  to_int := trunc_R
}.

(** *** IEEE binary64 *)

Module Binary64.

(** [(double) n], exact for every [n] the programs convert. *)
Definition b64_of_int (n : Z) : float :=
  if n <? 0 then PrimFloat.opp (PrimFloat.of_uint63 (Uint63.of_Z (- n)))
  else PrimFloat.of_uint63 (Uint63.of_Z n).

(** A decimal constant: numerator and denominator are exact doubles and the
    division rounds once, to the double nearest to the constant. *)
Definition b64_lit (q : Q) : float :=
  PrimFloat.div (b64_of_int (Qnum q)) (b64_of_int (Zpos (Qden q))).

(** The integer nearest to [m * 2^e] (halfway cases up) when [half_up], its
    integer part otherwise. *)
Definition magnitude (half_up : bool) (m : positive) (e : Z) : Z :=
  match e with
  | Zneg k =>
      if half_up then (Zpos m + 2 ^ (Zpos k - 1)) / 2 ^ Zpos k
      else Zpos m / 2 ^ Zpos k
  | _ => Zpos m * 2 ^ e
  end.

(** [round]: a double of exponent 0 or more is an integer already. *)
Definition b64_round (x : float) : float :=
  match Prim2SF x with
  | S754_finite s m (Zneg k) =>
      let v := magnitude true m (Zneg k) in
      if s then PrimFloat.opp (b64_of_int v) else b64_of_int v
  | _ => x
  end.

(** [(int) x].  Out of the range of [int], and for a NaN, the conversion is
    undefined in C; the value given here is the one x86-64 produces. *)
Definition b64_to_int (x : float) : Z :=
  match Prim2SF x with
  | S754_zero _ => 0
  | S754_finite s m e =>
      let v := magnitude false m e in
      let n := if s then - v else v in
      if (- 2 ^ 31 <=? n) && (n <? 2 ^ 31) then n else - 2 ^ 31
  | _ => - 2 ^ 31
  end.

Section Libm.

(** The two libm functions that are not IEEE operations. *)
Variables (libm_pow : float -> float -> float) (libm_log : float -> float).

Definition double : CDouble float := {|
  of_int := b64_of_int;
  lit := b64_lit;
  dadd := PrimFloat.add;
  dsub := PrimFloat.sub;
  dmul := PrimFloat.mul;
  ddiv := PrimFloat.div;
  dgt := fun x y => PrimFloat.ltb y x;
  pow := libm_pow;
  log := libm_log;
  round := b64_round;
  to_int := b64_to_int
|}.

End Libm.

(** A libm as far as the programs reach it without a target length: for a
    negative [x], [log(x)] is a NaN, and so is [pow(x, y)] for the exponents
    of the programs, none of which is an integer.  From 0 on the functions
    are left open ([x] itself stands in). *)
Definition negative_pow (x y : float) : float :=
  if PrimFloat.ltb x PrimFloat.zero then PrimFloat.nan else x.

Definition negative_log (x : float) : float :=
  if PrimFloat.ltb x PrimFloat.zero then PrimFloat.nan else x.

Definition double_negative : CDouble float :=
  double negative_pow negative_log.

End Binary64.

(** ** Output *)

(** One call of [fprintf]: the format as it is written in the source (escape
    sequences unexpanded) and the arguments.  [Past s n] is the pointer
    [s + n] where [s] has fewer than [n] characters: it points past the end
    of the string, and what [%s] prints for it is not determined by [s]. *)
Inductive arg (D : Type) :=
  | Int (n : Z)
  | Dbl (d : D)
  | Str (s : string)
  | Chr (c : ascii)
  | Past (s : string) (n : nat).
Arguments Int {D} n.
Arguments Dbl {D} d.
Arguments Str {D} s.
Arguments Chr {D} c.
Arguments Past {D} s n.

Definition line (D : Type) : Type := (string * list (arg D))%type.

(** [enum calculation_type], declared by both programs. *)
Inductive calculation_type := DIVERSE | NARROW.

Definition focus_eqb (a b : calculation_type) : bool :=
  match a, b with
  | DIVERSE, DIVERSE | NARROW, NARROW => true
  | _, _ => false
  end.

Definition focus_name (f : calculation_type) : string :=
  match f with DIVERSE => "DIVERSE" | NARROW => "NARROW" end.

(** What [getopt] hands to the option loop, one entry per iteration.  For
    [-l] the entry carries the decimal integer that the text of [optarg]
    starts with, of any size, or [None] when it starts with none: then
    [sscanf(optarg, "%d", ...)] converts nothing and leaves [target_length]
    as it was. *)
Inductive getopt_result :=
  | opt_h
  | opt_f (optarg : string)
  | opt_l (scanned : option Z)
  | opt_colon (optopt : ascii)
  | opt_question (optopt : ascii).

(** [argv[0]+2]: the name of the program without its first two characters
    (the [./] of the usual call), when it has that many. *)
Definition skip2 (s : string) : option string :=
  match s with
  | String _ (String _ r) => Some r
  | _ => None
  end.

Definition argv0_plus_2 {D : Type} (argv0 : string) : arg D :=
  match skip2 argv0 with
  | Some r => Str r
  | None => Past argv0 2
  end.

(** ** fLPSparameters.c *)

Module fLPSparameters.

Section Program.

Context {D : Type} {HD : CDouble D}.

(** The global variables of the program, [main]'s local [cov], and what has
    been written to the two streams so far. *)
Record globals := {
  focus : calculation_type;
  small_m : Z;
  big_m : Z;
  max_m : Z;
  target_length : Z;
  not_valid : Z;
  threshold : D;
  cov : Z;
  stdout : list (line D);
  stderr : list (line D)
}.

Definition set_focus (v : calculation_type) (g : globals) : globals :=
  {| focus := v; small_m := small_m g; big_m := big_m g; max_m := max_m g;
     target_length := target_length g; not_valid := not_valid g;
     threshold := threshold g; cov := cov g;
     stdout := stdout g; stderr := stderr g |}.

Definition set_small_m (v : Z) (g : globals) : globals :=
  {| focus := focus g; small_m := v; big_m := big_m g; max_m := max_m g;
     target_length := target_length g; not_valid := not_valid g;
     threshold := threshold g; cov := cov g;
     stdout := stdout g; stderr := stderr g |}.

Definition set_big_m (v : Z) (g : globals) : globals :=
  {| focus := focus g; small_m := small_m g; big_m := v; max_m := max_m g;
     target_length := target_length g; not_valid := not_valid g;
     threshold := threshold g; cov := cov g;
     stdout := stdout g; stderr := stderr g |}.

Definition set_max_m (v : Z) (g : globals) : globals :=
  {| focus := focus g; small_m := small_m g; big_m := big_m g; max_m := v;
     target_length := target_length g; not_valid := not_valid g;
     threshold := threshold g; cov := cov g;
     stdout := stdout g; stderr := stderr g |}.

Definition set_target_length (v : Z) (g : globals) : globals :=
  {| focus := focus g; small_m := small_m g; big_m := big_m g;
     max_m := max_m g; target_length := v; not_valid := not_valid g;
     threshold := threshold g; cov := cov g;
     stdout := stdout g; stderr := stderr g |}.

Definition set_not_valid (v : Z) (g : globals) : globals :=
  {| focus := focus g; small_m := small_m g; big_m := big_m g;
     max_m := max_m g; target_length := target_length g; not_valid := v;
     threshold := threshold g; cov := cov g;
     stdout := stdout g; stderr := stderr g |}.

Definition set_threshold (v : D) (g : globals) : globals :=
  {| focus := focus g; small_m := small_m g; big_m := big_m g;
     max_m := max_m g; target_length := target_length g;
     not_valid := not_valid g; threshold := v; cov := cov g;
     stdout := stdout g; stderr := stderr g |}.

Definition set_cov (v : Z) (g : globals) : globals :=
  {| focus := focus g; small_m := small_m g; big_m := big_m g;
     max_m := max_m g; target_length := target_length g;
     not_valid := not_valid g; threshold := threshold g; cov := v;
     stdout := stdout g; stderr := stderr g |}.

(** [fprintf(stdout, fmt, args...)] and [fprintf(stderr, fmt, args...)]. *)
Definition fprintf_stdout (fmt : string) (args : list (arg D)) (g : globals)
  : globals :=
  {| focus := focus g; small_m := small_m g; big_m := big_m g;
     max_m := max_m g; target_length := target_length g;
     not_valid := not_valid g; threshold := threshold g; cov := cov g;
     stdout := stdout g ++ [(fmt, args)]; stderr := stderr g |}.

Definition fprintf_stderr (fmt : string) (args : list (arg D)) (g : globals)
  : globals :=
  {| focus := focus g; small_m := small_m g; big_m := big_m g;
     max_m := max_m g; target_length := target_length g;
     not_valid := not_valid g; threshold := threshold g; cov := cov g;
     stdout := stdout g; stderr := stderr g ++ [(fmt, args)] |}.

(** The globals as the program starts: static storage is zero, except
    [target_length], initialised to -1. *)
Definition initial : globals :=
  {| focus := DIVERSE; small_m := 0; big_m := 0; max_m := 0;
     target_length := -1; not_valid := 0; threshold := of_int 0; cov := -1;
     stdout := []; stderr := [] |}.

(** The statement [if (c) { f }]. *)
Definition when (c : bool) (f : globals -> globals) (g : globals) : globals :=
  if c then f g else g.

(** The two formats of a coverage row. *)
Definition fmt_row : string := "\t~%d%%\t\t\t%d\t%d\t%.1le\n".
Definition fmt_NA : string :=
  "\t~%d%%\t\t\tNA [ target length <5 OR >%d, OR t>0.001]\n".

(** [print_help]: two calls of [fprintf(stderr, ...)]; the second one's
    text, the list of options, is cut short here. *)
Definition print_help (g : globals) : globals :=
  let g := fprintf_stderr "\nParameter choosing program for finding low-complexity or compositionally-biased regions using fLPS in proteins of a given target length\n" [] g in
  fprintf_stderr "=====...\n\nThe program options are:\n ..." [] g.

Definition output_parameters (upper_bound coverage : Z) (g : globals)
  : globals :=
  let g := when ((target_length g <? 5) || (target_length g >? upper_bound))
             (set_not_valid 1) g in
  let g := when (threshold g >~ lit (-3.0)) (set_not_valid 1) g in
  let g := when (small_m g <? 5) (set_not_valid 1) g in
  let g := when ((target_length g <? 50) && focus_eqb (focus g) NARROW
                 && (coverage =? 25))
             (set_not_valid 1) g in
  let g := when ((target_length g <? 100) && focus_eqb (focus g) NARROW
                 && (coverage =? 40))
             (set_not_valid 1) g in
  let g := when ((target_length g <=? 15) && focus_eqb (focus g) DIVERSE
                 && (coverage =? 40))
             (set_not_valid 1) g in
  let g := when ((target_length g <=? 10) && focus_eqb (focus g) NARROW)
             (set_not_valid 1) g in
  if not_valid g =? 0
  then fprintf_stdout fmt_row
         [Int coverage; Int (small_m g); Int (big_m g);
          Dbl (pow (lit 10.0) (threshold g))] g
  else fprintf_stdout fmt_NA [Int coverage; Int upper_bound] g.

(** [(double) target_length]. *)
Definition tl (g : globals) : D := of_int (target_length g).

(** *** The calculation, one block per coverage level

    Each block is the run of assignments that precedes one call
    [output_parameters(max_m, cov)]. *)

Definition diverse_2 (g : globals) : globals :=
  let g := set_big_m (to_int (round (lit 2.534 *~ pow (tl g) (lit 0.506)))) g in
  let g := set_small_m (wrap_int (big_m g - 2)) g in
  let g := set_threshold (lit (-0.153) *~ tl g -~ lit 3.994) g in
  let g := set_max_m 100 g in
  set_cov 2 g.

Definition diverse_5 (g : globals) : globals :=
  let g := set_not_valid 0 g in
  let g := set_big_m (to_int (round (lit 3.46 *~ pow (tl g) (lit 0.508)))) g in
  let g := set_small_m (wrap_int (big_m g - 4)) g in
  let g := set_threshold (lit (-0.098) *~ tl g -~ lit 3.305) g in
  let g := set_max_m 200 g in
  set_cov 5 g.

Definition diverse_10 (g : globals) : globals :=
  let g := set_not_valid 0 g in
  let g := set_big_m (to_int (round (lit 3.912 *~ pow (tl g) (lit 0.543)))) g in
  let g := set_small_m (wrap_int (big_m g - 10)) g in
  let g := set_threshold (lit (-0.055) *~ tl g -~ lit 3.635) g in
  let g := set_max_m 250 g in
  set_cov 10 g.

Definition diverse_25 (g : globals) : globals :=
  let g := set_not_valid 0 g in
  let g :=
    if target_length g <=? 105 then
      let g := set_big_m (to_int (round (lit 5.647 *~ pow (tl g) (lit 0.56)))) g in
      let g := set_small_m (to_int (round (lit 0.872 *~ pow (tl g) (lit 0.797)))) g in
      set_threshold (lit (-0.039) *~ tl g -~ lit 2.381) g
    else
      let g := set_big_m (to_int (round (lit 6.096 *~ pow (tl g) (lit 0.552)))) g in
      let g := set_small_m (wrap_int (big_m g - 50)) g in
      set_threshold (lit (-0.031) *~ tl g -~ lit 2.93) g in
  let g := set_max_m 300 g in
  set_cov 25 g.

Definition diverse_40 (g : globals) : globals :=
  let g := set_not_valid 0 g in
  let g :=
    if target_length g <=? 105 then
      let g := set_big_m (to_int (round (lit 9.82 *~ pow (tl g) (lit 0.522)))) g in
      let g := set_small_m (to_int (round (lit 0.481 *~ pow (tl g) (lit 0.876)))) g in
      set_threshold (lit (-0.022) *~ tl g -~ lit 2.709) g
    else
      let g := set_big_m (to_int (round (lit 11.126 *~ pow (tl g) (lit 0.484)))) g in
      let g := set_small_m (wrap_int (big_m g - 80)) g in
      set_threshold (lit (-0.025) *~ tl g -~ lit 2.762) g in
  let g := set_max_m 300 g in
  set_cov 40 g.

Definition narrow_2 (g : globals) : globals :=
  let g := set_big_m (to_int (round (lit 2.324 *~ pow (tl g) (lit 0.539)))) g in
  let g := set_small_m (big_m g) g in
  let g := set_threshold (lit (-0.149) *~ tl g -~ lit 3.883) g in
  let g := set_max_m 100 g in
  set_cov 2 g.

Definition narrow_5 (g : globals) : globals :=
  let g := set_not_valid 0 g in
  let g := set_big_m (to_int (round (lit 2.976 *~ pow (tl g) (lit 0.556)))) g in
  let g := set_small_m (big_m g) g in
  let g :=
    if target_length g <=? 28 then
      set_threshold (lit (-0.127) *~ tl g -~ lit 2.183) g
    else if target_length g >=? 33 then
      set_threshold (lit (-0.09) *~ tl g -~ lit 3.173) g
    else
      set_threshold (((lit (-0.127) *~ tl g -~ lit 2.183)
                      +~ (lit (-0.09) *~ tl g -~ lit 3.173)) /~ lit 2.0) g in
  let g := set_max_m 200 g in
  set_cov 5 g.

Definition narrow_10 (g : globals) : globals :=
  let g := set_not_valid 0 g in
  let g := set_big_m (to_int (round (lit 3.493 *~ pow (tl g) (lit 0.572)))) g in
  let g := set_small_m (big_m g) g in
  let g := set_threshold (lit (-0.058) *~ tl g -~ lit 2.731) g in
  let g := set_max_m 200 g in
  set_cov 10 g.

Definition narrow_25 (g : globals) : globals :=
  let g := set_not_valid 0 g in
  let g := set_big_m (to_int (round (lit 3.394 *~ pow (tl g) (lit 0.672)))) g in
  let g := set_small_m (big_m g) g in
  let g :=
    if target_length g <=? 90 then set_threshold (lit (-4.0)) g
    else set_threshold (lit (-0.028) *~ tl g -~ lit 1.695) g in
  let g := set_max_m 300 g in
  set_cov 25 g.

Definition narrow_40 (g : globals) : globals :=
  let g := set_not_valid 0 g in
  let g := set_big_m (to_int (round (lit 0.889 *~ pow (tl g) (lit 0.977)))) g in
  let g := set_small_m (big_m g) g in
  let g := set_threshold (lit (-4.0)) g in
  let g := set_max_m 300 g in
  set_cov 40 g.

Definition blocks (f : calculation_type) : list (globals -> globals) :=
  match f with
  | DIVERSE => [diverse_2; diverse_5; diverse_10; diverse_25; diverse_40]
  | NARROW => [narrow_2; narrow_5; narrow_10; narrow_25; narrow_40]
  end.

(** The call [output_parameters(max_m, cov)]. *)
Definition call_output (g : globals) : globals :=
  output_parameters (max_m g) (cov g) g.

(** Run the blocks in order, each followed by its call of
    [output_parameters]. *)
Fixpoint run (bs : list (globals -> globals)) (g : globals) : globals :=
  match bs with
  | [] => g
  | b :: bs' => run bs' (call_output (b g))
  end.

(** The globals at each call of [output_parameters], in order. *)
Fixpoint computed (bs : list (globals -> globals)) (g : globals)
  : list globals :=
  match bs with
  | [] => []
  | b :: bs' => b g :: computed bs' (call_output (b g))
  end.

(** The part of [main] under CALCULATE THE PARAMETERS. *)
Definition calculate (g : globals) : globals := run (blocks (focus g)) g.

(** *** The option loop and [main] *)

Definition warn_l : string :=
  " -l value is out of bounds, re-setting to a DEFAULT VALUE = 15\n".

(** The [while] loop over [getopt]: [inr g] when [-h] leaves through
    [exit(0)], [inl (g, errflg)] when the options are used up. *)
Fixpoint options (opts : list getopt_result) (errflg : Z) (g : globals)
  : globals * Z + globals :=
  match opts with
  | [] => inl (g, errflg)
  | opt_h :: _ => inr (print_help g)
  | opt_f optarg :: rest =>
      let g := if String.eqb optarg "narrow" then set_focus NARROW g
               else set_focus DIVERSE g in
      options rest errflg g
  | opt_l scanned :: rest =>
      let g := match scanned with
               | Some n => set_target_length (sscanf_d n) g
               | None => g
               end in
      let g := if (target_length g <? 5) || (target_length g >? 300)
               then set_target_length 15 (fprintf_stderr warn_l [] g)
               else g in
      options rest errflg g
  | opt_colon optopt :: rest =>
      let g := fprintf_stderr "option -%c requires a value...\n"
                 [Chr optopt] g in
      options rest (errflg + 1) g
  | opt_question optopt :: rest =>
      let g := fprintf_stderr "unrecognized option: -%c ...\n"
                 [Chr optopt] g in
      options rest (errflg + 1) g
  end.

Definition header (argv0 : string) (g : globals) : globals :=
  let g := fprintf_stdout
             "\n%s has chosen the following parameters for target length %d and focus %s:\n\n"
             [argv0_plus_2 argv0; Int (target_length g);
              Str (focus_name (focus g))] g in
  let g := if focus_eqb (focus g) DIVERSE
           then fprintf_stdout
                  "A DIVERSE focus means that a typical or average level of length variance for the annotated regions is allowed.\n"
                  [] g
           else fprintf_stdout
                  "A NARROW focus means that length variance is minimized for the annotated regions.\n"
                  [] g in
  let g := fprintf_stdout "\tEstimated_coverage\tm\tM\tt:\n" [] g in
  fprintf_stdout "\t------------------\t-\t-\t--\n" [] g.

Definition footer (g : globals) : globals :=
  let g := fprintf_stdout
             "\n\nCoverage is the proportion of protein sequences expected to be labelled by these parameter sets.\n"
             [] g in
  let g := fprintf_stdout
             "\nIt is recommended to use all of the parameters progressively in separate runs of the fLPS program,\n"
             [] g in
  let g := fprintf_stdout " and compare the outputs.\n" [] g in
  fprintf_stdout
    "If the calculated parameters are listed as 'NA', it means that at least one of them was out of bounds.\n\n"
    [] g.

(** [main]: the exit status and the final globals and streams. *)
Definition main (argv0 : string) (opts : list getopt_result) : Z * globals :=
  match options opts 0 initial with
  | inr g => (0, g)
  | inl (g, errflg) =>
      if negb (errflg =? 0) then (1, print_help g)
      else (0, footer (calculate (header argv0 g)))
  end.

(** *** Vocabulary of the properties *)

(** What a step wrote to standard output: the lines of [g'] after those
    of [g]. *)
Definition written (g g' : globals) : list (line D) :=
  List.skipn (List.length (stdout g)) (stdout g').

(** The globals once the options [-f f -l T] are read. *)
Definition start (T : Z) (f : calculation_type) : globals :=
  set_target_length T (set_focus f initial).

(** A block of assignments leaves the inputs and the output alone. *)
Definition frame (b : globals -> globals) : Prop :=
  forall g,
    target_length (b g) = target_length g
    /\ focus (b g) = focus g
    /\ stdout (b g) = stdout g.

(** The row as computed: coverage, [small_m], [big_m], the exponent
    [threshold] and the upper bound on the target length. *)
Definition view (g : globals) : Z * Z * Z * D * Z :=
  (cov g, small_m g, big_m g, threshold g, max_m g).

End Program.

Arguments globals : clear implicits.

End fLPSparameters.

(** ** SEGparameters.c *)

Module SEGparameters.

Section Program.

Context {D : Type} {HD : CDouble D}.

(** The global variables of the program, [main]'s local [cov], and what has
    been written to the two streams so far. *)
Record globals := {
  focus : calculation_type;
  K1 : D;
  K2 : D;
  max_l : D;
  L : Z;
  target_length : Z;
  not_valid : Z;
  cov : Z;
  stdout : list (line D);
  stderr : list (line D)
}.

Definition set_focus (v : calculation_type) (g : globals) : globals :=
  {| focus := v; K1 := K1 g; K2 := K2 g; max_l := max_l g; L := L g;
     target_length := target_length g; not_valid := not_valid g;
     cov := cov g; stdout := stdout g; stderr := stderr g |}.

Definition set_K1 (v : D) (g : globals) : globals :=
  {| focus := focus g; K1 := v; K2 := K2 g; max_l := max_l g; L := L g;
     target_length := target_length g; not_valid := not_valid g;
     cov := cov g; stdout := stdout g; stderr := stderr g |}.

Definition set_K2 (v : D) (g : globals) : globals :=
  {| focus := focus g; K1 := K1 g; K2 := v; max_l := max_l g; L := L g;
     target_length := target_length g; not_valid := not_valid g;
     cov := cov g; stdout := stdout g; stderr := stderr g |}.

Definition set_max_l (v : D) (g : globals) : globals :=
  {| focus := focus g; K1 := K1 g; K2 := K2 g; max_l := v; L := L g;
     target_length := target_length g; not_valid := not_valid g;
     cov := cov g; stdout := stdout g; stderr := stderr g |}.

Definition set_L (v : Z) (g : globals) : globals :=
  {| focus := focus g; K1 := K1 g; K2 := K2 g; max_l := max_l g; L := v;
     target_length := target_length g; not_valid := not_valid g;
     cov := cov g; stdout := stdout g; stderr := stderr g |}.

Definition set_target_length (v : Z) (g : globals) : globals :=
  {| focus := focus g; K1 := K1 g; K2 := K2 g; max_l := max_l g; L := L g;
     target_length := v; not_valid := not_valid g;
     cov := cov g; stdout := stdout g; stderr := stderr g |}.

Definition set_not_valid (v : Z) (g : globals) : globals :=
  {| focus := focus g; K1 := K1 g; K2 := K2 g; max_l := max_l g; L := L g;
     target_length := target_length g; not_valid := v;
     cov := cov g; stdout := stdout g; stderr := stderr g |}.

Definition set_cov (v : Z) (g : globals) : globals :=
  {| focus := focus g; K1 := K1 g; K2 := K2 g; max_l := max_l g; L := L g;
     target_length := target_length g; not_valid := not_valid g;
     cov := v; stdout := stdout g; stderr := stderr g |}.

(** [fprintf(stdout, fmt, args...)] and [fprintf(stderr, fmt, args...)]. *)
Definition fprintf_stdout (fmt : string) (args : list (arg D)) (g : globals)
  : globals :=
  {| focus := focus g; K1 := K1 g; K2 := K2 g; max_l := max_l g; L := L g;
     target_length := target_length g; not_valid := not_valid g;
     cov := cov g; stdout := stdout g ++ [(fmt, args)]; stderr := stderr g |}.

Definition fprintf_stderr (fmt : string) (args : list (arg D)) (g : globals)
  : globals :=
  {| focus := focus g; K1 := K1 g; K2 := K2 g; max_l := max_l g; L := L g;
     target_length := target_length g; not_valid := not_valid g;
     cov := cov g; stdout := stdout g; stderr := stderr g ++ [(fmt, args)] |}.

(** The globals as the program starts: static storage is zero, except
    [target_length], initialised to -1. *)
Definition initial : globals :=
  {| focus := DIVERSE; K1 := of_int 0; K2 := of_int 0; max_l := of_int 0;
     L := 0; target_length := -1; not_valid := 0; cov := -1;
     stdout := []; stderr := [] |}.

(** The statement [if (c) { f }]. *)
Definition when (c : bool) (f : globals -> globals) (g : globals) : globals :=
  if c then f g else g.

(** The three formats of a coverage row. *)
Definition fmt_row : string := "\t~%d%%\t\t\t%d\t%.2lf\t%.2lf\n".
Definition fmt_NA : string :=
  "\t~%d%%\t\t\tNA [ target length <5 OR >%d, OR K2>4.2]\n".
Definition fmt_NA10 : string :=
  "\t~%d%%\t\t\tNA [ target length <10 OR >%d, OR K2>4.2]\n".

(** [print_help]: two calls of [fprintf(stderr, ...)]; the second one's
    text, the list of options, is cut short here. *)
Definition print_help (g : globals) : globals :=
  let g := fprintf_stderr "\nParameter choosing program for finding low-complexity or compositionally-biased regions using SEG in proteins of a given target length\n" [] g in
  fprintf_stderr "=====...\n\nThe program options are:\n ..." [] g.

(** The local [a] is carried next to the globals once it is assigned. *)
Definition output_parameters (upper_bound coverage : Z) (g : globals)
  : globals :=
  let a := 0 in
  let g := when ((target_length g <? 5) || (target_length g >? upper_bound))
             (set_not_valid 1) g in
  let g := when (K2 g >~ lit 4.2) (set_not_valid 1) g in
  let '(a, g) :=
    if (coverage =? 40) && focus_eqb (focus g) DIVERSE
       && (target_length g <? 10)
    then (1, fprintf_stdout fmt_NA10 [Int coverage; Int upper_bound]
               (set_not_valid 1 g))
    else (a, g) in
  if not_valid g =? 0
  then fprintf_stdout fmt_row
         [Int coverage; Int (L g); Dbl (K1 g); Dbl (K2 g)] g
  else if a =? 0
  then fprintf_stdout fmt_NA [Int coverage; Int upper_bound] g
  else g.

(** [(double) target_length], as [pow] and [log] receive it. *)
Definition tl (g : globals) : D := of_int (target_length g).

(** *** The calculation, one block per coverage level

    Each block is the run of assignments that precedes one call
    [output_parameters(max_l, cov)]. *)

Definition diverse_2 (g : globals) : globals :=
  let g :=
    if target_length g <=? 35 then
      let g := set_L (to_int (round (lit 1.274 *~ pow (tl g) (lit 0.823)))) g in
      set_K2 (lit 0.701 *~ log (tl g) +~ lit 0.155) g
    else if target_length g >? 45 then
      let g := set_L (to_int (round (lit 1.004 *~ pow (tl g) (lit 0.891)))) g in
      set_K2 (lit 0.447 *~ log (tl g) +~ lit 1.038) g
    else
      let g := set_L (to_int (round (((lit 1.274 *~ pow (tl g) (lit 0.823))
                                      +~ (lit 1.004 *~ pow (tl g) (lit 0.891)))
                                     /~ lit 2.0))) g in
      set_K2 (((lit 0.701 *~ log (tl g) +~ lit 0.155)
               +~ (lit 0.447 *~ log (tl g) +~ lit 1.038)) /~ lit 2.0) g in
  let g := set_K1 (K2 g -~ lit 0.3) g in
  let g := set_max_l (of_int 200) g in
  set_cov 2 g.

Definition diverse_5 (g : globals) : globals :=
  let g := set_not_valid 0 g in
  let g :=
    if target_length g <=? 50 then
      let g := set_L (to_int (round (lit 1.385 *~ pow (tl g) (lit 0.801)))) g in
      let g := set_K2 (lit 0.716 *~ log (tl g) +~ lit 0.381) g in
      set_K1 (K2 g -~ lit 0.3) g
    else
      let g := set_L (to_int (round (lit 0.747 *~ pow (tl g) (lit 0.912)))) g in
      let g := set_K2 (lit 0.337 *~ log (tl g) +~ lit 1.883) g in
      set_K1 (K2 g -~ lit 0.4) g in
  let g := set_max_l (of_int 300) g in
  set_cov 5 g.

Definition diverse_10 (g : globals) : globals :=
  let g := set_not_valid 0 g in
  let g :=
    if target_length g <=? 45 then
      let g := set_L (to_int (round (lit 1.376 *~ pow (tl g) (lit 0.799)))) g in
      set_K2 (lit 0.69 *~ log (tl g) +~ lit 0.625) g
    else if target_length g >? 55 then
      let g := set_L (to_int (round (lit 1.298 *~ pow (tl g) (lit 0.809)))) g in
      set_K2 (lit 0.347 *~ log (tl g) +~ lit 1.93) g
    else
      let g := set_L (to_int (round (((lit 1.376 *~ pow (tl g) (lit 0.799))
                                      +~ (lit 1.298 *~ pow (tl g) (lit 0.809)))
                                     /~ lit 2.0))) g in
      set_K2 (((lit 0.69 *~ log (tl g) +~ lit 0.625)
               +~ (lit 0.347 *~ log (tl g) +~ lit 1.93)) /~ lit 2.0) g in
  let g := set_K1 (K2 g -~ lit 0.3) g in
  let g := set_max_l (of_int 300) g in
  set_cov 10 g.

Definition diverse_25 (g : globals) : globals :=
  let g := set_not_valid 0 g in
  let g := set_L (to_int (round (lit 1.507 *~ pow (tl g) (lit 0.762)))) g in
  let g :=
    if target_length g <=? 45 then
      set_K2 (lit 0.476 *~ log (tl g) +~ lit 1.566) g
    else if target_length g >? 55 then
      set_K2 (lit 0.314 *~ log (tl g) +~ lit 2.221) g
    else
      set_K2 (((lit 0.476 *~ log (tl g) +~ lit 1.566)
               +~ (lit 0.314 *~ log (tl g) +~ lit 2.221)) /~ lit 2.0) g in
  let g := set_K1 (K2 g -~ lit 0.3) g in
  let g := set_max_l (of_int 300) g in
  set_cov 25 g.

Definition diverse_40 (g : globals) : globals :=
  let g := set_not_valid 0 g in
  let g :=
    if target_length g <=? 55 then
      let g := set_L (to_int (round (lit 1.491 *~ pow (tl g) (lit 0.793)))) g in
      set_K2 (lit 0.581 *~ log (tl g) +~ lit 1.316) g
    else if target_length g >? 65 then
      let g := set_L (to_int (round (lit 1.138 *~ pow (tl g) (lit 0.86)))) g in
      set_K2 (lit 0.28 *~ log (tl g) +~ lit 2.442) g
    else
      let g := set_L (to_int (round (((lit 1.491 *~ pow (tl g) (lit 0.793))
                                      +~ (lit 1.138 *~ pow (tl g) (lit 0.86)))
                                     /~ lit 2.0))) g in
      set_K2 (((lit 0.581 *~ log (tl g) +~ lit 1.316)
               +~ (lit 0.28 *~ log (tl g) +~ lit 2.442)) /~ lit 2.0) g in
  let g := set_K1 (K2 g -~ lit 0.2) g in
  let g := set_max_l (of_int 300) g in
  set_cov 40 g.

(** [log(L)]: the [int] window length converted to [double]. *)
Definition logL (g : globals) : D := log (of_int (L g)).

Definition narrow_2 (g : globals) : globals :=
  let g := set_L (target_length g) g in
  let g :=
    if target_length g <=? 45 then
      set_K2 (lit 0.818 *~ logL g -~ lit 0.245) g
    else if target_length g >? 55 then
      set_K2 (lit 0.418 *~ logL g +~ lit 1.206) g
    else
      set_K2 (((lit 0.818 *~ logL g -~ lit 0.245)
               +~ (lit 0.418 *~ logL g +~ lit 1.206)) /~ lit 2.0) g in
  let g := set_K1 (K2 g) g in
  let g := set_max_l (of_int 250) g in
  set_cov 2 g.

Definition narrow_5 (g : globals) : globals :=
  let g := set_not_valid 0 g in
  let g :=
    if target_length g <=? 45 then
      set_K2 (lit 0.824 *~ logL g -~ lit 0.003) g
    else if target_length g >? 55 then
      set_K2 (lit 0.355 *~ logL g +~ lit 1.731) g
    else
      set_K2 (((lit 0.824 *~ logL g -~ lit 0.003)
               +~ (lit 0.355 *~ logL g +~ lit 1.731)) /~ lit 2.0) g in
  let g := set_K1 (K2 g) g in
  let g := set_max_l (of_int 300) g in
  set_cov 5 g.

Definition narrow_10 (g : globals) : globals :=
  let g := set_not_valid 0 g in
  let g :=
    if target_length g <=? 45 then
      set_K2 (lit 0.803 *~ logL g +~ lit 0.251) g
    else if target_length g >? 55 then
      set_K2 (lit 0.3 *~ logL g +~ lit 2.135) g
    else
      set_K2 (((lit 0.803 *~ logL g +~ lit 0.251)
               +~ (lit 0.3 *~ logL g +~ lit 2.135)) /~ lit 2.0) g in
  let g := set_K1 (K2 g) g in
  let g := set_max_l (of_int 300) g in
  set_cov 10 g.

Definition narrow_25 (g : globals) : globals :=
  let g := set_not_valid 0 g in
  let g :=
    if target_length g <=? 45 then
      set_K2 (lit 0.788 *~ logL g +~ lit 0.499) g
    else if target_length g >? 55 then
      set_K2 (lit 0.278 *~ logL g +~ lit 2.405) g
    else
      set_K2 (((lit 0.788 *~ logL g +~ lit 0.499)
               +~ (lit 0.278 *~ logL g +~ lit 2.405)) /~ lit 2.0) g in
  let g := set_K1 (K2 g) g in
  let g := set_max_l (of_int 300) g in
  set_cov 25 g.

Definition narrow_40 (g : globals) : globals :=
  let g := set_not_valid 0 g in
  let g :=
    if target_length g <=? 45 then
      set_K2 (lit 0.705 *~ logL g +~ lit 0.887) g
    else if target_length g >? 55 then
      set_K2 (lit 0.257 *~ logL g +~ lit 2.596) g
    else
      set_K2 (((lit 0.705 *~ logL g +~ lit 0.887)
               +~ (lit 0.257 *~ logL g +~ lit 2.596)) /~ lit 2.0) g in
  let g := set_K1 (K2 g) g in
  let g := set_max_l (of_int 250) g in
  set_cov 40 g.

Definition blocks (f : calculation_type) : list (globals -> globals) :=
  match f with
  | DIVERSE => [diverse_2; diverse_5; diverse_10; diverse_25; diverse_40]
  | NARROW => [narrow_2; narrow_5; narrow_10; narrow_25; narrow_40]
  end.

(** The call [output_parameters(max_l, cov)]: the double [max_l] is
    converted to the [int] parameter [upper_bound]. *)
Definition call_output (g : globals) : globals :=
  output_parameters (to_int (max_l g)) (cov g) g.

(** Run the blocks in order, each followed by its call of
    [output_parameters]. *)
Fixpoint run (bs : list (globals -> globals)) (g : globals) : globals :=
  match bs with
  | [] => g
  | b :: bs' => run bs' (call_output (b g))
  end.

(** The globals at each call of [output_parameters], in order. *)
Fixpoint computed (bs : list (globals -> globals)) (g : globals)
  : list globals :=
  match bs with
  | [] => []
  | b :: bs' => b g :: computed bs' (call_output (b g))
  end.

(** The part of [main] under CALCULATE THE PARAMETERS. *)
Definition calculate (g : globals) : globals := run (blocks (focus g)) g.

(** *** The option loop and [main] *)

Definition warn_l : string :=
  " -l value is out of bounds, re-setting to a DEFAULT VALUE = 15\n".

(** The [while] loop over [getopt]: [inr g] when [-h] leaves through
    [exit(0)], [inl (g, errflg)] when the options are used up. *)
Fixpoint options (opts : list getopt_result) (errflg : Z) (g : globals)
  : globals * Z + globals :=
  match opts with
  | [] => inl (g, errflg)
  | opt_h :: _ => inr (print_help g)
  | opt_f optarg :: rest =>
      let g := if String.eqb optarg "narrow" then set_focus NARROW g
               else set_focus DIVERSE g in
      options rest errflg g
  | opt_l scanned :: rest =>
      let g := match scanned with
               | Some n => set_target_length (sscanf_d n) g
               | None => g
               end in
      let g := if (target_length g <? 5) || (target_length g >? 300)
               then set_target_length 15 (fprintf_stderr warn_l [] g)
               else g in
      options rest errflg g
  | opt_colon optopt :: rest =>
      let g := fprintf_stderr "option -%c requires a value...\n"
                 [Chr optopt] g in
      options rest (errflg + 1) g
  | opt_question optopt :: rest =>
      let g := fprintf_stderr "unrecognized option: -%c ...\n"
                 [Chr optopt] g in
      options rest (errflg + 1) g
  end.

Definition header (argv0 : string) (g : globals) : globals :=
  let g := fprintf_stdout
             "\n%s has chosen the following parameters for target length %d and focus %s:\n\n"
             [argv0_plus_2 argv0; Int (target_length g);
              Str (focus_name (focus g))] g in
  let g := if focus_eqb (focus g) DIVERSE
           then fprintf_stdout
                  "A DIVERSE focus means that a typical or average level of length variance for the annotated regions is allowed.\n"
                  [] g
           else fprintf_stdout
                  "A NARROW focus means that length variance is minimized for the annotated regions.\n"
                  [] g in
  let g := fprintf_stdout "\tEstimated_coverage\tL\tK1\tK2:\n" [] g in
  fprintf_stdout "\t------------------\t-\t--\t---\n" [] g.

Definition footer (g : globals) : globals :=
  let g := fprintf_stdout
             "\n\nCoverage is the proportion of protein sequences expected to be labelled by these parameter sets.\n"
             [] g in
  let g := fprintf_stdout
             "\nIt is recommended to use all of the parameters progressively in separate runs of the SEG algorithm,\n"
             [] g in
  let g := fprintf_stdout " and compare the outputs.\n" [] g in
  fprintf_stdout
    "If the calculated parameters are listed as 'NA', it means that at least one of them was out of bounds.\n\n"
    [] g.

(** [main]: the exit status and the final globals and streams. *)
Definition main (argv0 : string) (opts : list getopt_result) : Z * globals :=
  match options opts 0 initial with
  | inr g => (0, g)
  | inl (g, errflg) =>
      if negb (errflg =? 0) then (1, print_help g)
      else (0, footer (calculate (header argv0 g)))
  end.

(** *** Vocabulary of the properties *)

(** What a step wrote to standard output: the lines of [g'] after those
    of [g]. *)
Definition written (g g' : globals) : list (line D) :=
  List.skipn (List.length (stdout g)) (stdout g').

(** The globals once the options [-f f -l T] are read. *)
Definition start (T : Z) (f : calculation_type) : globals :=
  set_target_length T (set_focus f initial).

(** A block of assignments leaves the inputs and the output alone. *)
Definition frame (b : globals -> globals) : Prop :=
  forall g,
    target_length (b g) = target_length g
    /\ focus (b g) = focus g
    /\ stdout (b g) = stdout g.

(** The row as computed: coverage, [L], [K1], [K2] and the upper bound on
    the target length. *)
Definition view (g : globals) : Z * Z * D * D * D :=
  (cov g, L g, K1 g, K2 g, max_l g).

End Program.

Arguments globals : clear implicits.

End SEGparameters.

(** ** The specification's tables *)

(** [contains pat s]: the text [pat] occurs in [s]. *)
Fixpoint contains (pat s : string) : bool :=
  String.prefix pat s
  || match s with
     | EmptyString => false
     | String _ r => contains pat r
     end.

(** The five coverage levels, in output order. *)
Definition coverage_levels : list Z := [2; 5; 10; 25; 40].

(** ``Rounded to nearest integer''. *)
Definition nearest {D : Type} {HD : CDouble D} (x : D) : Z :=
  to_int (round x).

(** *** Convention A (fLPS) *)

Module ConventionA.

Import fLPSparameters.

Section Spec.

Context {D : Type} {HD : CDouble D}.

(** The DIVERSE table, a row per coverage level: [big_m], [small_m], the
    threshold exponent and the largest target length, for target
    length [T]. *)
Definition diverse_table (c T : Z) : Z * Z * D * Z :=
  let x := of_int T in
  match c with
  | 2 =>
      let big_m := nearest (lit 2.534 *~ pow x (lit 0.506)) in
      (big_m, big_m - 2, lit (-0.153) *~ x -~ lit 3.994, 100)
  | 5 =>
      let big_m := nearest (lit 3.46 *~ pow x (lit 0.508)) in
      (big_m, big_m - 4, lit (-0.098) *~ x -~ lit 3.305, 200)
  | 10 =>
      let big_m := nearest (lit 3.912 *~ pow x (lit 0.543)) in
      (big_m, big_m - 10, lit (-0.055) *~ x -~ lit 3.635, 250)
  | 25 =>
      if T <=? 105 then
        (nearest (lit 5.647 *~ pow x (lit 0.56)),
         nearest (lit 0.872 *~ pow x (lit 0.797)),
         lit (-0.039) *~ x -~ lit 2.381, 300)
      else
        let big_m := nearest (lit 6.096 *~ pow x (lit 0.552)) in
        (big_m, big_m - 50, lit (-0.031) *~ x -~ lit 2.93, 300)
  | 40 =>
      if T <=? 105 then
        (nearest (lit 9.82 *~ pow x (lit 0.522)),
         nearest (lit 0.481 *~ pow x (lit 0.876)),
         lit (-0.022) *~ x -~ lit 2.709, 300)
      else
        let big_m := nearest (lit 11.126 *~ pow x (lit 0.484)) in
        (big_m, big_m - 80, lit (-0.025) *~ x -~ lit 2.762, 300)
  | _ => (0, 0, of_int 0, 0)
  end.

(** A table row in the order of [view]. *)
Definition diverse_row (T c : Z) : Z * Z * Z * D * Z :=
  let '(big_m, small_m, exponent, max_target) := diverse_table c T in
  (c, small_m, big_m, exponent, max_target).

(** The [small_m] of a row. *)
Definition row_small_m (r : Z * Z * Z * D * Z) : Z :=
  let '(_, small_m, _, _, _) := r in small_m.

(** The validity rules: the row computed in [g] is invalid when one of
    them holds. *)
Definition invalid (g : globals D) : bool :=
  (target_length g <? 5) || (target_length g >? max_m g)
  || (threshold g >~ lit (-3.0))
  || (small_m g <? 5)
  || (focus_eqb (focus g) NARROW && (cov g =? 25) && (target_length g <? 50))
  || (focus_eqb (focus g) NARROW && (cov g =? 40)
      && (target_length g <? 100))
  || (focus_eqb (focus g) DIVERSE && (cov g =? 40)
      && (target_length g <=? 15))
  || (focus_eqb (focus g) NARROW && (target_length g <=? 10)).

(** The NA line of a row and the line of a valid row. *)
Definition NA_line (g : globals D) : line D :=
  (fmt_NA, [Int (cov g); Int (max_m g)]).

Definition row_line (g : globals D) : line D :=
  (fmt_row, [Int (cov g); Int (small_m g); Int (big_m g);
             Dbl (pow (lit 10.0) (threshold g))]).

(** What is reported for the row computed in [g]. *)
Definition report (g : globals D) : line D :=
  if invalid g then NA_line g else row_line g.

(** What the call of [output_parameters] writes for the row in [g] when the
    flag [not_valid] may already be set on entry. *)
Definition printed (g : globals D) : line D :=
  if invalid g || negb (not_valid g =? 0) then NA_line g else row_line g.

(** The bounds the NA marker names, [target length <5 OR >max, OR
    t>0.001]: is one of them violated?  The threshold printed is
    [10^threshold], above 0.001 when the exponent is above -3. *)
Definition named_bound_violated (g : globals D) : bool :=
  (target_length g <? 5) || (target_length g >? max_m g)
  || (threshold g >~ lit (-3.0)).

(** The NA marker of a row names a bound that the row violates. *)
Definition marker_names_violation (g : globals D) (l : line D) : Prop :=
  fst l = fmt_NA -> named_bound_violated g = true.

(** The validity rules that the NA marker does not name. *)
Definition unnamed_rule (g : globals D) : bool :=
  (small_m g <? 5)
  || (focus_eqb (focus g) NARROW && (cov g =? 25) && (target_length g <? 50))
  || (focus_eqb (focus g) NARROW && (cov g =? 40)
      && (target_length g <? 100))
  || (focus_eqb (focus g) DIVERSE && (cov g =? 40)
      && (target_length g <=? 15))
  || (focus_eqb (focus g) NARROW && (target_length g <=? 10)).

(** A line that is a coverage row for level [c]: the parameters or NA. *)
Definition row_for (c : Z) (l : line D) : Prop :=
  (exists m M t, l = (fmt_row, [Int c; Int m; Int M; Dbl t]))
  \/ (exists bound, l = (fmt_NA, [Int c; Int bound])).

End Spec.

End ConventionA.

(** *** Convention B (SEG) *)

Module ConventionB.

Import SEGparameters.

Section Spec.

Context {D : Type} {HD : CDouble D}.

(** The NARROW table, a row per coverage level: [K2] from the window
    length [L] and the target length [T], and the largest target length. *)
Definition narrow_table (c T L : Z) : D * Z :=
  let lnL := log (of_int L) in
  let pick (low high : D) : D :=
    if T <=? 45 then low
    else if T >? 55 then high
    else (low +~ high) /~ lit 2.0 in
  match c with
  | 2 => (pick (lit 0.818 *~ lnL -~ lit 0.245)
               (lit 0.418 *~ lnL +~ lit 1.206), 250)
  | 5 => (pick (lit 0.824 *~ lnL -~ lit 0.003)
               (lit 0.355 *~ lnL +~ lit 1.731), 300)
  | 10 => (pick (lit 0.803 *~ lnL +~ lit 0.251)
                (lit 0.3 *~ lnL +~ lit 2.135), 300)
  | 25 => (pick (lit 0.788 *~ lnL +~ lit 0.499)
                (lit 0.278 *~ lnL +~ lit 2.405), 300)
  | 40 => (pick (lit 0.705 *~ lnL +~ lit 0.887)
                (lit 0.257 *~ lnL +~ lit 2.596), 250)
  | _ => (of_int 0, 0)
  end.

(** A NARROW row in the order of [view]: [L] is the target length and
    [K1] is [K2]. *)
Definition narrow_row (T c : Z) : Z * Z * D * D * D :=
  let '(k2, max_target) := narrow_table c T T in
  (c, T, k2, k2, of_int max_target).

(** The upper bound the call passes for the row computed in [g]. *)
Definition bound (g : globals D) : Z := to_int (max_l g).

(** The validity rules: the row computed in [g] is invalid when one of
    them holds; the last one is the special case. *)
Definition special (g : globals D) : bool :=
  focus_eqb (focus g) DIVERSE && (cov g =? 40) && (target_length g <? 10).

Definition invalid (g : globals D) : bool :=
  (target_length g <? 5) || (target_length g >? bound g)
  || (K2 g >~ lit 4.2)
  || special g.

(** The three lines. *)
Definition NA_line (g : globals D) : line D :=
  (fmt_NA, [Int (cov g); Int (bound g)]).

Definition NA10_line (g : globals D) : line D :=
  (fmt_NA10, [Int (cov g); Int (bound g)]).

Definition row_line (g : globals D) : line D :=
  (fmt_row, [Int (cov g); Int (L g); Dbl (K1 g); Dbl (K2 g)]).

(** What is reported for the row computed in [g]. *)
Definition report (g : globals D) : line D :=
  if special g then NA10_line g
  else if invalid g then NA_line g
  else row_line g.

(** What the call of [output_parameters] writes for the row in [g] when the
    flag [not_valid] may already be set on entry. *)
Definition printed (g : globals D) : line D :=
  if special g then NA10_line g
  else if invalid g || negb (not_valid g =? 0) then NA_line g
  else row_line g.

(** The report when only the upper bound on the target length and the
    special case are looked at. *)
Definition length_report (g : globals D) : line D :=
  if special g then NA10_line g
  else if target_length g >? bound g then NA_line g
  else row_line g.

(** The bounds the two NA markers name, [target length <5 OR >bound, OR
    K2>4.2] and the same with [<10]: is one of them violated? *)
Definition named_bound_violated (g : globals D) (l : line D) : bool :=
  if String.eqb (fst l) fmt_NA10
  then (target_length g <? 10) || (target_length g >? bound g)
       || (K2 g >~ lit 4.2)
  else (target_length g <? 5) || (target_length g >? bound g)
       || (K2 g >~ lit 4.2).

(** The NA marker of a row names a bound that the row violates. *)
Definition marker_names_violation (g : globals D) (l : line D) : Prop :=
  fst l <> fmt_row -> named_bound_violated g l = true.

(** A line that is a coverage row for level [c]: the parameters or one of
    the NA lines. *)
Definition row_for (c : Z) (l : line D) : Prop :=
  (exists w k1 k2, l = (fmt_row, [Int c; Int w; Dbl k1; Dbl k2]))
  \/ (exists bound, l = (fmt_NA, [Int c; Int bound]))
  \/ (exists bound, l = (fmt_NA10, [Int c; Int bound])).

End Spec.

End ConventionB.

(** ** The command line *)

(** The kinds of entries that [getopt] hands to the option loop. *)
Definition is_h (o : getopt_result) : bool :=
  match o with opt_h => true | _ => false end.

Definition is_f (o : getopt_result) : bool :=
  match o with opt_f _ => true | _ => false end.


Definition is_error (o : getopt_result) : bool :=
  match o with opt_colon _ | opt_question _ => true | _ => false end.

(** The focus that the argument of [-f] selects. *)
Definition read_focus (optarg : string) : calculation_type :=
  if String.eqb optarg "narrow" then NARROW else DIVERSE.


(** The target lengths from 5 to 300. *)
Definition target_lengths : list Z := map Z.of_nat (seq 5 296).

(** ** Further vocabulary of the two programs *)

Module VocabularyA.

Import fLPSparameters.

Section Vocabulary.

Context {D : Type} {HD : CDouble D}.

(** The globals without the two streams. *)
Definition erase (g : globals D) : globals D :=
  {| focus := focus g; small_m := small_m g; big_m := big_m g;
     max_m := max_m g; target_length := target_length g;
     not_valid := not_valid g; threshold := threshold g; cov := cov g;
     stdout := []; stderr := [] |}.

(** The coverage level and the upper bound on the target length that each
    call of [output_parameters] receives, in order. *)
Definition upper_bounds (f : calculation_type) : list (Z * Z) :=
  match f with
  | DIVERSE => [(2, 100); (5, 200); (10, 250); (25, 300); (40, 300)]
  | NARROW => [(2, 100); (5, 200); (10, 200); (25, 300); (40, 300)]
  end.

(** Where the test [threshold > -3.0] holds, for target lengths from 5
    to 300. *)
Definition threshold_fires (f : calculation_type) (c T : Z) : bool :=
  match f, c with
  | DIVERSE, 25 => T <=? 15
  | DIVERSE, 40 => T <=? 13
  | NARROW, 5 => T <=? 6
  | _, _ => false
  end.

End Vocabulary.

End VocabularyA.

Module VocabularyB.

Import SEGparameters.

Section Vocabulary.

Context {D : Type} {HD : CDouble D}.

(** The globals without the two streams. *)
Definition erase (g : globals D) : globals D :=
  {| focus := focus g; K1 := K1 g; K2 := K2 g; max_l := max_l g; L := L g;
     target_length := target_length g; not_valid := not_valid g;
     cov := cov g; stdout := []; stderr := [] |}.

(** The coverage level and the upper bound on the target length that each
    call of [output_parameters] receives, in order. *)
Definition upper_bounds (f : calculation_type) : list (Z * Z) :=
  match f with
  | DIVERSE => [(2, 200); (5, 300); (10, 300); (25, 300); (40, 300)]
  | NARROW => [(2, 250); (5, 300); (10, 300); (25, 300); (40, 250)]
  end.

End Vocabulary.

End VocabularyB.

(** * Properties *)

Local Open Scope list_scope.

(** Case analysis on the test of a conditional, innermost first. *)
Ltac split_if :=
  match goal with
  | |- context [if ?c then _ else _] =>
      lazymatch c with
      | context [if _ then _ else _] => fail
      | _ => destruct c eqn:?
      end
  end.

(** Case analysis on one comparison. *)
Ltac split_test :=
  match goal with
  | |- context [?a <? ?b] => destruct (a <? b) eqn:?
  | |- context [?a <=? ?b] => destruct (a <=? b) eqn:?
  | |- context [?a >? ?b] => destruct (a >? b) eqn:?
  | |- context [?a =? ?b] => destruct (a =? b) eqn:?
  | |- context [?a >~ ?b] => destruct (a >~ b) eqn:?
  end.

Lemma skipn_length_app {A : Type} (l l' : list A) :
  skipn (List.length l) (l ++ l') = l'.
Proof. induction l as [|a l IH]; [destruct l'|]; simpl; auto. Qed.

Lemma if_one_or (a b : bool) (x : Z) :
  (if a then 1 else if b then 1 else x) = if a || b then 1 else x.
Proof. destruct a, b; reflexivity. Qed.

Lemma last_cons {A : Type} (l : list A) : forall x d,
  last (x :: l) d = last l x.
Proof.
  induction l as [|y l IH]; intros x d; [reflexivity|].
  change (last (y :: l) d = last (y :: l) x). now rewrite !IH.
Qed.

Lemma Forall2_five {A B : Type} (R : A -> B -> Prop) a1 a2 a3 a4 a5 l :
  Forall2 R [a1; a2; a3; a4; a5] l ->
  exists b1 b2 b3 b4 b5,
    l = [b1; b2; b3; b4; b5]
    /\ R a1 b1 /\ R a2 b2 /\ R a3 b3 /\ R a4 b4 /\ R a5 b5.
Proof.
  intros H.
  repeat match goal with
         | H : Forall2 _ (_ :: _) _ |- _ => inversion H; subst; clear H
         | H : Forall2 _ [] _ |- _ => inversion H; subst; clear H
         end.
  eexists _, _, _, _, _. repeat split; eassumption.
Qed.

(** ** C ints *)

(** In the range of [int] nothing wraps. *)
Lemma wrap_int_in_int (z : Z) : in_int z -> wrap_int z = z.
Proof.
  unfold in_int, wrap_int.
  change (2 ^ 31) with 2147483648. change (2 ^ 32) with 4294967296.
  intros H. rewrite Z.mod_small; lia.
Qed.

(** A difference that wraps, wraps downwards when it is not below the
    range. *)
Lemma wrap_int_le (z : Z) : - 2 ^ 31 <= z -> wrap_int z <= z.
Proof.
  unfold wrap_int.
  change (2 ^ 31) with 2147483648. change (2 ^ 32) with 4294967296.
  intros H.
  pose proof (Z.mod_le (z + 2147483648) 4294967296). lia.
Qed.

Lemma in_int_300_or_near (T : Z) : - 1000 <= T <= 1000 -> in_int T.
Proof. unfold in_int. change (2 ^ 31) with 2147483648. lia. Qed.

Lemma in_int_300 (T : Z) : 5 <= T <= 300 -> in_int T.
Proof. intros H. apply in_int_300_or_near. lia. Qed.


Lemma sscanf_d_in_int (n : Z) : in_int n -> sscanf_d n = n.
Proof.
  intros H. unfold sscanf_d.
  replace (Z.max (- 2 ^ 63) (Z.min n (2 ^ 63 - 1))) with n.
  - now apply wrap_int_in_int.
  - unfold in_int in H.
    change (2 ^ 31) with 2147483648 in H.
    change (2 ^ 63) with 9223372036854775808. lia.
Qed.

(** ** fLPSparameters *)

Module fLPS_facts.

Import fLPSparameters ConventionA.

Section Facts.

Context {D : Type} {HD : CDouble D}.

Implicit Types g x : globals D.

(** *** [output_parameters] *)

Lemma when_not_valid (c : bool) g :
  when c (set_not_valid 1) g
  = set_not_valid (if c then 1 else not_valid g) g.
Proof. destruct c, g; reflexivity. Qed.

Lemma set_not_valid_twice a b g :
  set_not_valid a (set_not_valid b g) = set_not_valid a g.
Proof. reflexivity. Qed.

Lemma set_not_valid_same g : set_not_valid (not_valid g) g = g.
Proof. destruct g; reflexivity. Qed.

(** The tests of [output_parameters], in the order of the code, are the
    validity rules. *)
Lemma tests_invalid g :
  (target_length g <=? 10) && focus_eqb (focus g) NARROW
  || (target_length g <=? 15) && focus_eqb (focus g) DIVERSE && (cov g =? 40)
  || (target_length g <? 100) && focus_eqb (focus g) NARROW && (cov g =? 40)
  || (target_length g <? 50) && focus_eqb (focus g) NARROW && (cov g =? 25)
  || (small_m g <? 5)
  || (threshold g >~ lit (-3.0))
  || ((target_length g <? 5) || (target_length g >? max_m g))
  = invalid g.
Proof.
  unfold invalid.
  destruct (focus g); cbn; repeat (split_test; cbn); reflexivity.
Qed.

Lemma call_output_eq g :
  call_output g =
    fprintf_stdout (fst (printed g)) (snd (printed g))
      (if invalid g then set_not_valid 1 g else g).
Proof.
  unfold call_output, output_parameters.
  rewrite !when_not_valid.
  cbn [set_not_valid focus small_m big_m max_m target_length not_valid
       threshold cov stdout stderr].
  rewrite !set_not_valid_twice, !if_one_or, tests_invalid.
  unfold printed.
  destruct (invalid g); cbn; [reflexivity|].
  rewrite set_not_valid_same.
  destruct (not_valid g =? 0); reflexivity.
Qed.

Lemma call_output_stdout g :
  stdout (call_output g) = stdout g ++ [printed g].
Proof.
  rewrite call_output_eq.
  destruct (printed g), (invalid g); reflexivity.
Qed.

Lemma call_output_inputs g :
  target_length (call_output g) = target_length g
  /\ focus (call_output g) = focus g.
Proof. rewrite call_output_eq. destruct (invalid g); split; reflexivity. Qed.

Lemma call_output_view g : view (call_output g) = view g.
Proof. rewrite call_output_eq. destruct (invalid g); reflexivity. Qed.

(** With the flag clear on entry, the line written is the report. *)
Lemma printed_report g : not_valid g = 0 -> printed g = report g.
Proof.
  intros H. unfold printed, report. rewrite H. cbn.
  now rewrite orb_false_r.
Qed.

(** *** The blocks *)

Ltac block :=
  intros;
  unfold diverse_2, diverse_5, diverse_10, diverse_25, diverse_40,
    narrow_2, narrow_5, narrow_10, narrow_25, narrow_40;
  cbn; repeat (split_if; cbn); auto.

Lemma blocks_frame f : Forall frame (blocks f).
Proof. destruct f; repeat constructor; block. Qed.

(** *** [run] and [computed] *)

Lemma run_stdout bs : Forall frame bs ->
  forall g, stdout (run bs g) = stdout g ++ map printed (computed bs g).
Proof.
  induction 1 as [|b bs Hb _ IH]; intros g; cbn.
  - now rewrite app_nil_r.
  - rewrite IH, call_output_stdout.
    destruct (Hb g) as (_ & _ & ->).
    now rewrite <- app_assoc.
Qed.

Lemma run_written bs g : Forall frame bs ->
  written g (run bs g) = map printed (computed bs g).
Proof.
  intros H. unfold written. rewrite (run_stdout bs H).
  apply skipn_length_app.
Qed.

(** When the calculation ends the globals hold the last row computed. *)
Lemma run_view bs : forall g,
  view (run bs g) = last (map view (computed bs g)) (view g).
Proof.
  induction bs as [|b bs IH]; intros g; [reflexivity|].
  cbn [run computed map]. rewrite IH, call_output_view.
  symmetry. apply last_cons.
Qed.

Lemma run_inputs bs : Forall frame bs ->
  forall g, target_length (run bs g) = target_length g
            /\ focus (run bs g) = focus g.
Proof.
  induction 1 as [|b bs Hb _ IH]; intros g; cbn [run]; [auto|].
  destruct (IH (call_output (b g))) as (-> & ->).
  destruct (call_output_inputs (b g)) as (-> & ->).
  destruct (Hb g) as (-> & -> & _). auto.
Qed.

(** What every block establishes from the same inputs holds of every
    computed row. *)
Lemma computed_Forall (P : globals D -> Prop) bs : Forall frame bs ->
  forall g,
    (forall b x, In b bs -> target_length x = target_length g ->
                 focus x = focus g -> P (b x)) ->
    Forall P (computed bs g).
Proof.
  induction 1 as [|b bs Hb _ IH]; intros g HP; cbn; constructor.
  - apply HP; cbn; auto.
  - destruct (Hb g) as (HT & Hf & _).
    destruct (call_output_inputs (b g)) as (HT' & Hf').
    apply IH. intros b' x Hin Hx Hx'.
    apply HP; [now right| congruence | congruence].
Qed.

Lemma computed_inputs f g :
  Forall (fun x => target_length x = target_length g /\ focus x = focus g)
    (computed (blocks f) g).
Proof.
  apply computed_Forall; [apply blocks_frame|].
  intros b x Hin HT Hf.
  pose proof (blocks_frame f) as H.
  rewrite Forall_forall in H.
  destruct (H b Hin x) as (-> & -> & _). auto.
Qed.

(** A table that every block follows is the list of the computed rows. *)
Lemma computed_map {X C : Type} (v : globals D -> X) (table : Z -> C -> X)
  bs cs :
  Forall frame bs ->
  Forall2 (fun b c => forall x, v (b x) = table (target_length x) c) bs cs ->
  forall g, map v (computed bs g) = map (table (target_length g)) cs.
Proof.
  intros Hf H. induction H as [|b c bs cs Hb _ IH]; intros g; cbn.
  - reflexivity.
  - inversion Hf as [|? ? Hfb Hfbs]; subst.
    rewrite Hb, (IH Hfbs). f_equal.
    destruct (call_output_inputs (b g)) as (-> & _).
    now destruct (Hfb g) as (-> & _).
Qed.

(** The same for a table that the blocks follow at the target lengths
    where [P] holds. *)
Lemma computed_map_if {X C : Type} (v : globals D -> X) (table : Z -> C -> X)
  (P : Z -> C -> Prop) bs cs :
  Forall frame bs ->
  Forall2 (fun b c => forall x, P (target_length x) c ->
                                v (b x) = table (target_length x) c) bs cs ->
  forall g, Forall (P (target_length g)) cs ->
            map v (computed bs g) = map (table (target_length g)) cs.
Proof.
  intros Hf H. induction H as [|b c bs cs Hb _ IH]; intros g HP; cbn.
  - reflexivity.
  - inversion Hf as [|? ? Hfb Hfbs]; subst.
    inversion HP as [|? ? HPc HPcs]; subst.
    assert (HT : target_length (call_output (b g)) = target_length g).
    { destruct (call_output_inputs (b g)) as (-> & _).
      now destruct (Hfb g) as (-> & _). }
    rewrite Hb by assumption. f_equal.
    rewrite <- HT. apply (IH Hfbs). now rewrite HT.
Qed.

(** From the second block on the flag is cleared before the row is
    computed; the first block leaves it as the program starts, clear. *)
Lemma blocks_flag f :
  exists b1 rest,
    blocks f = b1 :: rest
    /\ (forall x, not_valid (b1 x) = not_valid x)
    /\ Forall (fun b => forall x, not_valid (b x) = 0) rest.
Proof.
  destruct f; eexists _, _; (split; [reflexivity|]);
    (split; [block | repeat constructor; block]).
Qed.

Lemma computed_reset bs :
  Forall (fun b => forall x, not_valid (b x) = 0) bs ->
  forall g, Forall (fun x => not_valid x = 0) (computed bs g).
Proof. induction 1; intros g; cbn; constructor; auto. Qed.

Lemma computed_not_valid f g : not_valid g = 0 ->
  Forall (fun x => not_valid x = 0) (computed (blocks f) g).
Proof.
  intros H. destruct (blocks_flag f) as (b1 & rest & -> & H1 & Hrest).
  cbn [computed]. constructor.
  - now rewrite H1.
  - now apply computed_reset.
Qed.

(** *** The rows of the NARROW focus *)

Lemma narrow_bounds g :
  map (fun x => (cov x, max_m x)) (computed (blocks NARROW) g)
  = [(2, 100); (5, 200); (10, 200); (25, 300); (40, 300)].
Proof.
  rewrite (computed_map _ (fun _ p => p) (blocks NARROW)
             [(2, 100); (5, 200); (10, 200); (25, 300); (40, 300)]).
  - apply map_id.
  - apply blocks_frame.
  - repeat constructor; block.
Qed.

Lemma narrow_10_invalid x :
  focus x = NARROW -> target_length x = 10 -> invalid x = true.
Proof.
  intros Hf HT. unfold invalid. rewrite Hf, HT. cbn.
  now rewrite !orb_true_r.
Qed.

(** Where the tabulated [small_m] fits an [int], the subtraction of the
    block is the one of the table. *)
Lemma diverse_blocks_follow_table :
  Forall2 (fun b c => forall x,
             in_int (row_small_m (diverse_row (target_length x) c)) ->
             view (b x) = diverse_row (target_length x) c)
    (blocks DIVERSE) coverage_levels.
Proof.
  unfold view, diverse_row, diverse_table, row_small_m, nearest, tl.
  repeat (apply Forall2_cons; [|]); [..|apply Forall2_nil];
    intros x H; block; cbn in H;
    repeat match goal with
           | E : (_ <=? _) = _ |- _ => rewrite E in H
           end;
    try (rewrite wrap_int_in_int by exact H); reflexivity.
Qed.

(** C1, amended.  Convention A, DIVERSE: at every target length for
    which the tabulated [small_m] values fit a 32-bit int, the five rows
    the program computes (coverage, [small_m], [big_m], threshold exponent,
    largest target length) are the rows of the specification's table: for
    2%, [big_m = round(2.534 * T^0.506)], [small_m = big_m - 2] and
    exponent [-0.153 * T - 3.994]; for 25% and 40% the two-piece formulas
    split at [T <= 105], with [small_m] its own power law below the split
    and [big_m] minus 50, respectively 80, above it.  The calculation
    writes one line for each of these rows, and ends with the 40% row in
    the globals. *)
Theorem fLPS_diverse_rows_follow_table g :
  focus g = DIVERSE ->
  Forall (fun c => in_int (row_small_m (diverse_row (target_length g) c)))
    coverage_levels ->
  map view (computed (blocks (focus g)) g)
  = map (diverse_row (target_length g)) coverage_levels
  /\ written g (calculate g) = map printed (computed (blocks (focus g)) g)
  /\ view (calculate g) = diverse_row (target_length g) 40.
Proof.
  intros Hf Hfit.
  assert (H : map view (computed (blocks (focus g)) g)
              = map (diverse_row (target_length g)) coverage_levels).
  { rewrite Hf.
    apply (computed_map_if view diverse_row
             (fun T c => in_int (row_small_m (diverse_row T c)))).
    - apply (blocks_frame DIVERSE).
    - apply diverse_blocks_follow_table.
    - exact Hfit. }
  split; [exact H|]. split.
  - unfold calculate. apply run_written, blocks_frame.
  - unfold calculate. rewrite run_view, H. reflexivity.
Qed.

(** C6.  Convention A, NARROW: in each of the five rows the program
    computes, whatever the target length, [small_m] is [big_m]. *)
Theorem fLPS_narrow_small_m_is_big_m g :
  Forall (fun x => small_m x = big_m x) (computed (blocks NARROW) g).
Proof.
  apply computed_Forall; [apply (blocks_frame NARROW)|].
  intros b x Hin _ _. cbn in Hin.
  repeat (destruct Hin as [<- | Hin]; [block|]). contradiction.
Qed.

(** The lines of the calculation, flag clear on entry. *)
Lemma calculate_written g : not_valid g = 0 ->
  written g (calculate g) = map report (computed (blocks (focus g)) g).
Proof.
  intros Hnv. unfold calculate. rewrite run_written by apply blocks_frame.
  apply map_ext_Forall.
  eapply Forall_impl; [|apply (computed_not_valid _ _ Hnv)].
  intros x Hx. now apply printed_report.
Qed.

Lemma narrow_10_written g :
  not_valid g = 0 -> focus g = NARROW -> target_length g = 10 ->
  written g (calculate g)
  = [(fmt_NA, [Int 2; Int 100]); (fmt_NA, [Int 5; Int 200]);
     (fmt_NA, [Int 10; Int 200]); (fmt_NA, [Int 25; Int 300]);
     (fmt_NA, [Int 40; Int 300])].
Proof.
  intros Hnv Hf HT. rewrite calculate_written, Hf by assumption.
  transitivity (map (fun p : Z * Z => (fmt_NA, [@Int D (fst p); Int (snd p)]))
                  (map (fun x => (cov x, max_m x))
                     (computed (blocks NARROW) g))).
  - rewrite map_map. apply map_ext_Forall.
    eapply Forall_impl; [|apply (computed_inputs NARROW g)].
    intros x (HTx & Hfx). unfold report.
    rewrite narrow_10_invalid by congruence. reflexivity.
  - now rewrite narrow_bounds.
Qed.

(** C3.  Convention A: started with the flag [not_valid] clear, as the
    program starts, the calculation writes for each computed row its
    report: the NA line when one of the validity rules holds of the row,
    its parameters otherwise.  With the NARROW focus and target length 10
    the five lines are NA lines. *)
Theorem fLPS_row_NA_iff_invalid g :
  not_valid g = 0 ->
  written g (calculate g) = map report (computed (blocks (focus g)) g)
  /\ (focus g = NARROW -> target_length g = 10 ->
      written g (calculate g)
      = [(fmt_NA, [Int 2; Int 100]); (fmt_NA, [Int 5; Int 200]);
         (fmt_NA, [Int 10; Int 200]); (fmt_NA, [Int 25; Int 300]);
         (fmt_NA, [Int 40; Int 300])]).
Proof.
  intros Hnv. split.
  - now apply calculate_written.
  - now apply narrow_10_written.
Qed.

(** *** Five rows, in coverage order *)

Lemma cov_levels f g : map cov (computed (blocks f) g) = coverage_levels.
Proof.
  rewrite (computed_map _ (fun _ c => c) (blocks f) coverage_levels).
  - apply map_id.
  - apply blocks_frame.
  - destruct f; repeat constructor; block.
Qed.

Lemma printed_rows xs : Forall2 row_for (map cov xs) (map printed xs).
Proof.
  induction xs as [|x xs IH]; cbn; constructor; [|exact IH].
  unfold printed, row_for, NA_line, row_line.
  destruct (invalid x || negb (not_valid x =? 0)); eauto.
Qed.

Lemma five_rows g : Forall2 row_for coverage_levels (written g (calculate g)).
Proof.
  unfold calculate. rewrite run_written by apply blocks_frame.
  rewrite <- (cov_levels (focus g) g). apply printed_rows.
Qed.

(** *** What the NA marker names *)

Lemma invalid_named_or_unnamed g :
  invalid g = named_bound_violated g || unnamed_rule g.
Proof.
  unfold invalid, named_bound_violated, unnamed_rule.
  now rewrite !orb_assoc.
Qed.

Lemma NA_marker g : not_valid g = 0 ->
  Forall2 (fun x l => fst l = fmt_NA ->
                      l = NA_line x
                      /\ (named_bound_violated x = true
                          \/ unnamed_rule x = true))
    (computed (blocks (focus g)) g) (written g (calculate g)).
Proof.
  intros Hnv. rewrite calculate_written by assumption.
  induction (computed (blocks (focus g)) g) as [|x xs IH]; cbn;
    constructor; [|exact IH].
  unfold report. rewrite invalid_named_or_unnamed.
  destruct (named_bound_violated x || unnamed_rule x) eqn:E.
  - intros _. split; [reflexivity|]. now apply orb_true_iff.
  - discriminate.
Qed.

(** *** The option loop *)

(** The option loop leaves the flag and standard output alone: the
    calculation starts with [not_valid] clear. *)
Lemma options_keep opts : forall e g g' e',
  options opts e g = inl (g', e') ->
  not_valid g' = not_valid g /\ stdout g' = stdout g.
Proof.
  induction opts as [|o opts IH]; intros e g g' e' H; cbn in H.
  - inversion H; subst; auto.
  - destruct o as [|a|[n|]|c|c]; try discriminate;
      apply IH in H; destruct H as (-> & ->);
      repeat (split_if; cbn); auto.
Qed.

(** The options [-f a -l T], [T] from 5 to 300, give [start]. *)
Lemma main_in_range argv0 a T :
  5 <= T <= 300 ->
  main argv0 [opt_f a; opt_l (Some T)]
  = (0, footer
          (calculate
             (header argv0
                (start T (if String.eqb a "narrow" then NARROW
                          else DIVERSE))))).
Proof.
  intros HT. unfold main. cbn [options].
  rewrite sscanf_d_in_int by now apply in_int_300.
  replace (target_length _ <? 5) with false
    by (destruct (String.eqb a "narrow"); cbn; symmetry; apply Z.ltb_ge; lia).
  replace (target_length _ >? 300) with false
    by (destruct (String.eqb a "narrow"); cbn; symmetry;
        rewrite Z.gtb_ltb; apply Z.ltb_ge; lia).
  cbn. destruct (String.eqb a "narrow"); reflexivity.
Qed.

(** A value that [sscanf] stores within 5 and 300 is kept, without a
    warning. *)
Lemma options_l_stored n :
  5 <= sscanf_d n <= 300 ->
  options [opt_l (Some n)] 0 initial
  = inl (set_target_length (sscanf_d n) initial, 0).
Proof.
  intros H. cbn [options].
  cbn [target_length set_target_length].
  replace ((sscanf_d n <? 5) || (sscanf_d n >? 300)) with false;
    [reflexivity|].
  symmetry. apply orb_false_iff. split; [|rewrite Z.gtb_ltb];
    apply Z.ltb_ge; lia.
Qed.

(** Header, calculation and footer keep the target length. *)
Lemma main_target_length argv0 g :
  target_length (footer (calculate (header argv0 g))) = target_length g.
Proof.
  unfold footer. cbn [target_length fprintf_stdout].
  unfold calculate.
  destruct (run_inputs (blocks (focus (header argv0 g)))
              (blocks_frame _) (header argv0 g)) as (-> & _).
  unfold header. cbn. destruct (focus_eqb (focus g) DIVERSE); reflexivity.
Qed.

Lemma options_focus fs rest e g :
  exists g',
    options (map opt_f fs ++ rest) e g = options rest e g'
    /\ target_length g' = target_length g
    /\ not_valid g' = not_valid g
    /\ stdout g' = stdout g
    /\ stderr g' = stderr g.
Proof.
  revert g. induction fs as [|a fs IH]; intros g; cbn.
  - exists g. auto.
  - destruct (IH (if String.eqb a "narrow" then set_focus NARROW g
                  else set_focus DIVERSE g)) as (g' & -> & H).
    exists g'. split; [reflexivity|].
    destruct (String.eqb a "narrow"); exact H.
Qed.

Lemma options_l_out_of_range n pre post :
  in_int n -> n < 5 \/ 300 < n ->
  exists g0,
    options (map opt_f pre ++ opt_l (Some n) :: map opt_f post) 0 initial
    = inl (g0, 0)
    /\ target_length g0 = 15
    /\ not_valid g0 = 0
    /\ stdout g0 = []
    /\ stderr g0 = [(warn_l, [])].
Proof.
  intros Hint Hn.
  destruct (options_focus pre (opt_l (Some n) :: map opt_f post) 0 initial)
    as (g1 & -> & HT1 & Hnv1 & Hout1 & Herr1).
  cbn [options]. rewrite (sscanf_d_in_int n Hint).
  cbn [target_length set_target_length].
  replace ((n <? 5) || (n >? 300)) with true
    by (symmetry; apply orb_true_iff; destruct Hn; [left|right]; lia).
  rewrite <- (app_nil_r (map opt_f post)).
  destruct (options_focus post [] 0
              (set_target_length 15
                 (fprintf_stderr warn_l [] (set_target_length n g1))))
    as (g2 & -> & HT2 & Hnv2 & Hout2 & Herr2).
  exists g2. cbn in *. repeat split; try congruence.
  rewrite Herr2, Herr1. reflexivity.
Qed.

Lemma main_l_out_of_range n pre post argv0 :
  in_int n -> n < 5 \/ 300 < n ->
  exists g0,
    target_length g0 = 15
    /\ stderr g0 = [(warn_l, [])]
    /\ main argv0 (map opt_f pre ++ opt_l (Some n) :: map opt_f post)
       = (0, footer (calculate (header argv0 g0))).
Proof.
  intros Hint Hn.
  destruct (options_l_out_of_range n pre post Hint Hn)
    as (g0 & Hopt & HT & _ & _ & Herr).
  exists g0. unfold main. rewrite Hopt. auto.
Qed.

End Facts.

End fLPS_facts.

(** ** SEGparameters *)

Module SEG_facts.

Import SEGparameters ConventionB.

Section Facts.

Context {D : Type} {HD : CDouble D}.

Implicit Types g x : globals D.

(** *** [output_parameters] *)

Lemma seg_when_not_valid (c : bool) g :
  when c (set_not_valid 1) g
  = set_not_valid (if c then 1 else not_valid g) g.
Proof. destruct c, g; reflexivity. Qed.

Lemma seg_set_not_valid_twice a b g :
  set_not_valid a (set_not_valid b g) = set_not_valid a g.
Proof. reflexivity. Qed.

Lemma seg_set_not_valid_same g : set_not_valid (not_valid g) g = g.
Proof. destruct g; reflexivity. Qed.

Lemma special_test g :
  (cov g =? 40) && focus_eqb (focus g) DIVERSE && (target_length g <? 10)
  = special g.
Proof.
  unfold special. destruct (focus g), (cov g =? 40); reflexivity.
Qed.

Lemma seg_call_output_eq g :
  call_output g =
    fprintf_stdout (fst (printed g)) (snd (printed g))
      (if invalid g then set_not_valid 1 g else g).
Proof.
  unfold call_output, output_parameters.
  rewrite !seg_when_not_valid.
  cbn [set_not_valid focus K1 K2 max_l L target_length not_valid cov
       stdout stderr].
  rewrite if_one_or, special_test, !seg_set_not_valid_twice.
  rewrite (orb_comm (K2 g >~ lit 4.2)).
  unfold printed, invalid. fold (bound g).
  destruct (special g),
    ((target_length g <? 5) || (target_length g >? bound g)
     || (K2 g >~ lit 4.2));
    cbn [orb]; rewrite ?seg_set_not_valid_same; try reflexivity.
  destruct (not_valid g =? 0) eqn:E; cbn; rewrite ?E; reflexivity.
Qed.

Lemma seg_call_output_stdout g :
  stdout (call_output g) = stdout g ++ [printed g].
Proof.
  rewrite seg_call_output_eq.
  destruct (printed g), (invalid g); reflexivity.
Qed.

Lemma seg_call_output_inputs g :
  target_length (call_output g) = target_length g
  /\ focus (call_output g) = focus g
  /\ L (call_output g) = L g.
Proof.
  rewrite seg_call_output_eq. destruct (invalid g); repeat split; reflexivity.
Qed.

Lemma seg_call_output_view g : view (call_output g) = view g.
Proof. rewrite seg_call_output_eq. destruct (invalid g); reflexivity. Qed.

(** With the flag clear on entry, the line written is the report. *)
Lemma seg_printed_report g : not_valid g = 0 -> printed g = report g.
Proof.
  intros H. unfold printed, report. rewrite H. cbn.
  now rewrite orb_false_r.
Qed.

(** *** The blocks *)

Ltac block :=
  intros;
  unfold diverse_2, diverse_5, diverse_10, diverse_25, diverse_40,
    narrow_2, narrow_5, narrow_10, narrow_25, narrow_40;
  cbn; repeat (split_if; cbn); auto.

Lemma seg_blocks_frame f : Forall frame (blocks f).
Proof. destruct f; repeat constructor; block. Qed.

(** *** [run] and [computed] *)

Lemma seg_run_stdout bs : Forall frame bs ->
  forall g, stdout (run bs g) = stdout g ++ map printed (computed bs g).
Proof.
  induction 1 as [|b bs Hb _ IH]; intros g; cbn.
  - now rewrite app_nil_r.
  - rewrite IH, seg_call_output_stdout.
    destruct (Hb g) as (_ & _ & ->).
    now rewrite <- app_assoc.
Qed.

Lemma seg_run_written bs g : Forall frame bs ->
  written g (run bs g) = map printed (computed bs g).
Proof.
  intros H. unfold written. rewrite (seg_run_stdout bs H).
  apply skipn_length_app.
Qed.

(** When the calculation ends the globals hold the last row computed. *)
Lemma seg_run_view bs : forall g,
  view (run bs g) = last (map view (computed bs g)) (view g).
Proof.
  induction bs as [|b bs IH]; intros g; [reflexivity|].
  cbn [run computed map]. rewrite IH, seg_call_output_view.
  symmetry. apply last_cons.
Qed.

Lemma seg_run_inputs bs : Forall frame bs ->
  forall g, target_length (run bs g) = target_length g
            /\ focus (run bs g) = focus g.
Proof.
  induction 1 as [|b bs Hb _ IH]; intros g; cbn [run]; [auto|].
  destruct (IH (call_output (b g))) as (-> & ->).
  destruct (seg_call_output_inputs (b g)) as (-> & -> & _).
  destruct (Hb g) as (-> & -> & _). auto.
Qed.

(** What every block establishes from globals that satisfy [I] holds of
    every computed row, when the calls keep [I]. *)
Lemma seg_computed_Forall (I P : globals D -> Prop) bs :
  (forall b x, In b bs -> I x -> I (call_output (b x))) ->
  (forall b x, In b bs -> I x -> P (b x)) ->
  forall g, I g -> Forall P (computed bs g).
Proof.
  induction bs as [|b bs IH]; intros HI HP g Hg; cbn; constructor.
  - apply HP; cbn; auto.
  - apply IH.
    + intros b' x Hin. apply HI. now right.
    + intros b' x Hin. apply HP. now right.
    + apply HI; cbn; auto.
Qed.

(** The inputs stay what they are. *)
Lemma inputs_kept f b x : In b (blocks f) ->
  target_length (call_output (b x)) = target_length x
  /\ focus (call_output (b x)) = focus x.
Proof.
  intros Hin.
  pose proof (seg_blocks_frame f) as H. rewrite Forall_forall in H.
  destruct (H b Hin x) as (HT & Hf & _).
  destruct (seg_call_output_inputs (b x)) as (-> & -> & _). auto.
Qed.

Lemma seg_computed_inputs f g :
  Forall (fun x => target_length x = target_length g /\ focus x = focus g)
    (computed (blocks f) g).
Proof.
  apply (seg_computed_Forall
           (fun x => target_length x = target_length g
                     /\ focus x = focus g)); [| |auto].
  - intros b x Hin (HT & Hf).
    destruct (inputs_kept f b x Hin) as (-> & ->). auto.
  - intros b x Hin (HT & Hf).
    pose proof (seg_blocks_frame f) as H. rewrite Forall_forall in H.
    destruct (H b Hin x) as (-> & -> & _). auto.
Qed.

(** A table that every block follows, from globals that satisfy [I], is
    the list of the computed rows. *)
Lemma seg_computed_map {X C : Type} (I : globals D -> Prop)
  (v : globals D -> X) (table : Z -> C -> X) bs cs :
  Forall frame bs ->
  (forall b x, In b bs -> I x -> I (call_output (b x))) ->
  Forall2 (fun b c => forall x, I x -> v (b x) = table (target_length x) c)
    bs cs ->
  forall g, I g -> map v (computed bs g) = map (table (target_length g)) cs.
Proof.
  intros Hf HI H. induction H as [|b c bs cs Hb _ IH]; intros g Hg; cbn.
  - reflexivity.
  - inversion Hf as [|? ? Hfb Hfbs]; subst.
    rewrite Hb by assumption. f_equal.
    rewrite IH.
    + destruct (seg_call_output_inputs (b g)) as (-> & _).
      now destruct (Hfb g) as (-> & _).
    + assumption.
    + intros b' x Hin. apply HI. now right.
    + apply HI; cbn; auto.
Qed.

Lemma seg_blocks_flag f :
  exists b1 rest,
    blocks f = b1 :: rest
    /\ (forall x, not_valid (b1 x) = not_valid x)
    /\ Forall (fun b => forall x, not_valid (b x) = 0) rest.
Proof.
  destruct f; eexists _, _; (split; [reflexivity|]);
    (split; [block | repeat constructor; block]).
Qed.

Lemma seg_computed_reset bs :
  Forall (fun b => forall x, not_valid (b x) = 0) bs ->
  forall g, Forall (fun x => not_valid x = 0) (computed bs g).
Proof. induction 1; intros g; cbn; constructor; auto. Qed.

Lemma seg_computed_not_valid f g : not_valid g = 0 ->
  Forall (fun x => not_valid x = 0) (computed (blocks f) g).
Proof.
  intros H. destruct (seg_blocks_flag f) as (b1 & rest & -> & H1 & Hrest).
  cbn [computed]. constructor.
  - now rewrite H1.
  - now apply seg_computed_reset.
Qed.

(** The lines of the calculation, flag clear on entry. *)
Lemma seg_calculate_written g : not_valid g = 0 ->
  written g (calculate g) = map report (computed (blocks (focus g)) g).
Proof.
  intros Hnv. unfold calculate. rewrite seg_run_written by apply seg_blocks_frame.
  apply map_ext_Forall.
  eapply Forall_impl; [|apply (seg_computed_not_valid _ _ Hnv)].
  intros x Hx. now apply seg_printed_report.
Qed.

(** *** Five rows, in coverage order *)

Lemma seg_cov_levels f g : map cov (computed (blocks f) g) = coverage_levels.
Proof.
  rewrite (seg_computed_map (fun _ => True) cov (fun _ c => c) (blocks f)
             coverage_levels);
    [apply map_id | apply seg_blocks_frame | auto | | exact I].
  destruct f; repeat constructor; block.
Qed.

Lemma seg_printed_rows xs : Forall2 row_for (map cov xs) (map printed xs).
Proof.
  induction xs as [|x xs IH]; cbn; constructor; [|exact IH].
  unfold printed, row_for, NA_line, NA10_line, row_line.
  destruct (special x); [eauto|].
  destruct (invalid x || negb (not_valid x =? 0)); eauto.
Qed.

Lemma seg_five_rows g : Forall2 row_for coverage_levels (written g (calculate g)).
Proof.
  unfold calculate. rewrite seg_run_written by apply seg_blocks_frame.
  rewrite <- (seg_cov_levels (focus g) g). apply seg_printed_rows.
Qed.

(** *** What the NA markers name *)

Lemma seg_NA_marker g : not_valid g = 0 ->
  Forall2 marker_names_violation
    (computed (blocks (focus g)) g) (written g (calculate g)).
Proof.
  intros Hnv. rewrite seg_calculate_written by assumption.
  induction (computed (blocks (focus g)) g) as [|x xs IH]; cbn;
    constructor; [|exact IH].
  unfold marker_names_violation, report, named_bound_violated.
  destruct (special x) eqn:Hs.
  - intros _. cbn.
    unfold special in Hs. apply andb_true_iff in Hs as (_ & ->).
    reflexivity.
  - unfold invalid. rewrite Hs, orb_false_r.
    destruct ((target_length x <? 5) || (target_length x >? bound x)
              || (K2 x >~ lit 4.2)); cbn; [reflexivity|].
    intros H. now contradiction H.
Qed.

(** *** The NARROW focus *)

Lemma narrow_rows g :
  map view (computed (blocks NARROW) g)
  = map (narrow_row (target_length g)) coverage_levels.
Proof.
  change (view (narrow_2 g)
          :: map view (computed [narrow_5; narrow_10; narrow_25; narrow_40]
                         (call_output (narrow_2 g)))
          = narrow_row (target_length g) 2
            :: map (narrow_row (target_length g)) [5; 10; 25; 40]).
  f_equal.
  - unfold view, narrow_row, narrow_table. block.
  - assert (HT : target_length (call_output (narrow_2 g)) = target_length g).
    { destruct (seg_call_output_inputs (narrow_2 g)) as (-> & _). block. }
    rewrite <- HT.
    apply (seg_computed_map (fun x => L x = target_length x))
      with (cs := [5; 10; 25; 40]).
    + repeat constructor; block.
    + intros b x Hin HL.
      destruct (seg_call_output_inputs (b x)) as (-> & _ & ->).
      cbn in Hin.
      repeat (destruct Hin as [<- | Hin]; [block|]). contradiction.
    + unfold view, narrow_row, narrow_table.
      repeat (apply Forall2_cons;
              [intros x HL; block; unfold logL; cbn; rewrite ?HL;
               reflexivity|]).
      apply Forall2_nil.
    + destruct (seg_call_output_inputs (narrow_2 g)) as (-> & _ & ->). block.
Qed.

Lemma narrow_K1 g :
  Forall (fun x => K1 x = K2 x) (computed (blocks NARROW) g).
Proof.
  apply (seg_computed_Forall (fun _ => True)); auto.
  intros b x Hin _. cbn in Hin.
  repeat (destruct Hin as [<- | Hin]; [block|]). contradiction.
Qed.

(** *** The DIVERSE focus *)

Lemma diverse_K1 g :
  Forall (fun x => K1 x = K2 x -~ lit 0.2 \/ K1 x = K2 x -~ lit 0.3
                   \/ K1 x = K2 x -~ lit 0.4)
    (computed (blocks DIVERSE) g).
Proof.
  apply (seg_computed_Forall (fun _ => True)); auto.
  intros b x Hin _. cbn in Hin.
  repeat (destruct Hin as [<- | Hin]; [block|]). contradiction.
Qed.

(** The 40% row of a DIVERSE run with a target length under 10: the
    special case holds of it. *)
Lemma diverse_40_state g :
  focus g = DIVERSE -> target_length g < 10 ->
  exists y,
    nth_error (computed (blocks DIVERSE) g) 4 = Some (diverse_40 y)
    /\ run (blocks DIVERSE) g = call_output (diverse_40 y)
    /\ special (diverse_40 y) = true
    /\ cov (diverse_40 y) = 40
    /\ bound (diverse_40 y) = to_int (of_int 300).
Proof.
  intros Hf HT.
  exists (call_output
            (diverse_25
               (call_output
                  (diverse_10
                     (call_output (diverse_5 (call_output (diverse_2 g)))))))).
  set (y := call_output (diverse_25 _)).
  assert (Hy : In (diverse_40 y) (computed (blocks DIVERSE) g)).
  { cbn [blocks computed]. do 4 right. left. reflexivity. }
  split; [reflexivity|]. split; [reflexivity|].
  clearbody y.
  pose proof (seg_computed_inputs DIVERSE g) as H.
  rewrite Forall_forall in H. destruct (H _ Hy) as (HTy & Hfy).
  assert (Hc : cov (diverse_40 y) = 40) by block.
  assert (Hm : max_l (diverse_40 y) = of_int 300) by block.
  unfold special, bound. rewrite Hfy, Hf, Hc, HTy, Hm. cbn.
  repeat split. now apply Z.ltb_lt.
Qed.

Lemma diverse_40_under_10 g :
  focus g = DIVERSE -> target_length g < 10 ->
  nth_error (written g (calculate g)) 4
  = Some (fmt_NA10, [Int 40; Int (to_int (of_int 300))])
  /\ not_valid (calculate g) = 1.
Proof.
  intros Hf HT.
  destruct (diverse_40_state g Hf HT) as (y & Hnth & Hrun & Hs & Hc & Hb).
  unfold calculate. rewrite Hf. split.
  - rewrite seg_run_written by apply seg_blocks_frame.
    rewrite nth_error_map, Hnth. cbn [option_map].
    unfold printed, NA10_line. now rewrite Hs, Hc, Hb.
  - rewrite Hrun, seg_call_output_eq.
    unfold invalid. rewrite Hs, orb_true_r. reflexivity.
Qed.

(** *** The option loop *)

(** The option loop leaves the flag and standard output alone: the
    calculation starts with [not_valid] clear. *)
Lemma seg_options_keep opts : forall e g g' e',
  options opts e g = inl (g', e') ->
  not_valid g' = not_valid g /\ stdout g' = stdout g.
Proof.
  induction opts as [|o opts IH]; intros e g g' e' H; cbn in H.
  - inversion H; subst; auto.
  - destruct o as [|a|[n|]|c|c]; try discriminate;
      apply IH in H; destruct H as (-> & ->);
      repeat (split_if; cbn); auto.
Qed.

(** The options [-f a -l T], [T] from 5 to 300, give [start]. *)
Lemma seg_main_in_range argv0 a T :
  5 <= T <= 300 ->
  main argv0 [opt_f a; opt_l (Some T)]
  = (0, footer
          (calculate
             (header argv0
                (start T (if String.eqb a "narrow" then NARROW
                          else DIVERSE))))).
Proof.
  intros HT. unfold main. cbn [options].
  rewrite sscanf_d_in_int by now apply in_int_300.
  replace (target_length _ <? 5) with false
    by (destruct (String.eqb a "narrow"); cbn; symmetry; apply Z.ltb_ge; lia).
  replace (target_length _ >? 300) with false
    by (destruct (String.eqb a "narrow"); cbn; symmetry;
        rewrite Z.gtb_ltb; apply Z.ltb_ge; lia).
  cbn. destruct (String.eqb a "narrow"); reflexivity.
Qed.

Lemma seg_options_focus fs rest e g :
  exists g',
    options (map opt_f fs ++ rest) e g = options rest e g'
    /\ target_length g' = target_length g
    /\ not_valid g' = not_valid g
    /\ stdout g' = stdout g
    /\ stderr g' = stderr g.
Proof.
  revert g. induction fs as [|a fs IH]; intros g; cbn.
  - exists g. auto.
  - destruct (IH (if String.eqb a "narrow" then set_focus NARROW g
                  else set_focus DIVERSE g)) as (g' & -> & H).
    exists g'. split; [reflexivity|].
    destruct (String.eqb a "narrow"); exact H.
Qed.

Lemma seg_options_l_out_of_range n pre post :
  in_int n -> n < 5 \/ 300 < n ->
  exists g0,
    options (map opt_f pre ++ opt_l (Some n) :: map opt_f post) 0 initial
    = inl (g0, 0)
    /\ target_length g0 = 15
    /\ not_valid g0 = 0
    /\ stdout g0 = []
    /\ stderr g0 = [(warn_l, [])].
Proof.
  intros Hint Hn.
  destruct (seg_options_focus pre (opt_l (Some n) :: map opt_f post) 0 initial)
    as (g1 & -> & HT1 & Hnv1 & Hout1 & Herr1).
  cbn [options]. rewrite (sscanf_d_in_int n Hint).
  cbn [target_length set_target_length].
  replace ((n <? 5) || (n >? 300)) with true
    by (symmetry; apply orb_true_iff; destruct Hn; [left|right]; lia).
  rewrite <- (app_nil_r (map opt_f post)).
  destruct (seg_options_focus post [] 0
              (set_target_length 15
                 (fprintf_stderr warn_l [] (set_target_length n g1))))
    as (g2 & -> & HT2 & Hnv2 & Hout2 & Herr2).
  exists g2. cbn in *. repeat split; try congruence.
  rewrite Herr2, Herr1. reflexivity.
Qed.

Lemma seg_main_l_out_of_range n pre post argv0 :
  in_int n -> n < 5 \/ 300 < n ->
  exists g0,
    target_length g0 = 15
    /\ stderr g0 = [(warn_l, [])]
    /\ main argv0 (map opt_f pre ++ opt_l (Some n) :: map opt_f post)
       = (0, footer (calculate (header argv0 g0))).
Proof.
  intros Hint Hn.
  destruct (seg_options_l_out_of_range n pre post Hint Hn)
    as (g0 & Hopt & HT & _ & _ & Herr).
  exists g0. unfold main. rewrite Hopt. auto.
Qed.

(** C2.  Convention B, NARROW: whatever the target length, the five rows
    the program computes (coverage, [L], [K1], [K2], largest target length)
    are the rows of the specification's table: [L] is the target length
    itself, [K1] is [K2], and [K2] is the first logarithmic formula for
    [T <= 45], the second for [T > 55] and the mean of the two in
    between.  The calculation writes one line for each of these rows, and
    ends with the 40% row in the globals. *)
Theorem SEG_narrow_rows_follow_table g :
  focus g = NARROW ->
  map view (computed (blocks (focus g)) g)
  = map (narrow_row (target_length g)) coverage_levels
  /\ Forall (fun x => L x = target_length g /\ K1 x = K2 x)
       (computed (blocks (focus g)) g)
  /\ written g (calculate g) = map printed (computed (blocks (focus g)) g)
  /\ view (calculate g) = narrow_row (target_length g) 40
  /\ L (calculate g) = target_length g
  /\ K1 (calculate g) = K2 (calculate g).
Proof.
  intros Hf. unfold calculate. rewrite Hf.
  pose proof (narrow_rows g) as H. split; [exact H|].
  assert (Hv : Forall (fun v : Z * Z * D * D * D =>
                         snd (fst (fst (fst v))) = target_length g
                         /\ snd (fst (fst v)) = snd (fst v))
                 (map view (computed (blocks NARROW) g))).
  { rewrite H. unfold narrow_row.
    repeat constructor;
      destruct (narrow_table _ (target_length g) (target_length g));
      reflexivity. }
  assert (Hlast : view (run (blocks NARROW) g)
                  = narrow_row (target_length g) 40).
  { rewrite seg_run_view, H. reflexivity. }
  split; [rewrite Forall_map in Hv; exact Hv|].
  split; [apply seg_run_written, seg_blocks_frame|].
  split; [exact Hlast|].
  unfold view in Hlast. unfold narrow_row in Hlast.
  destruct (narrow_table 40 (target_length g) (target_length g))
    as [k2 m].
  split.
  - exact (f_equal (fun v : Z * Z * D * D * D => snd (fst (fst (fst v))))
             Hlast).
  - transitivity k2.
    + exact (f_equal (fun v : Z * Z * D * D * D => snd (fst (fst v)))
               Hlast).
    + symmetry.
      exact (f_equal (fun v : Z * Z * D * D * D => snd (fst v)) Hlast).
Qed.

(** C5.  Convention B: with the DIVERSE focus and a target length under
    10, the calculation writes five lines: one row line each for 2%, 5%,
    10% and 25%, and for the 40% row the NA line whose text names
    [target length <10], that line only; the row is flagged invalid
    ([not_valid] is 1 when the calculation ends).  That text does not name
    [target length <5], which the generic NA text does. *)
Theorem SEG_diverse_40_under_10_distinct_NA g :
  focus g = DIVERSE -> target_length g < 10 ->
  (exists l2 l5 l10 l25,
     written g (calculate g)
     = [l2; l5; l10; l25;
        (fmt_NA10, [Int 40; Int (to_int (of_int 300))])]
     /\ Forall2 row_for [2; 5; 10; 25] [l2; l5; l10; l25])
  /\ not_valid (calculate g) = 1
  /\ contains "target length <10" fmt_NA10 = true
  /\ contains "target length <5" fmt_NA10 = false
  /\ contains "target length <5" fmt_NA = true.
Proof.
  intros Hf HT.
  destruct (diverse_40_under_10 g Hf HT) as (Hline & Hflag).
  split; [|repeat split; solve [assumption | reflexivity]].
  destruct (Forall2_five _ _ _ _ _ _ _ (seg_five_rows g))
    as (l2 & l5 & l10 & l25 & l40 & E & H2 & H5 & H10 & H25 & _).
  rewrite E in Hline. cbn in Hline. inversion Hline; subst l40.
  exists l2, l5, l10, l25. split; [exact E|].
  repeat (apply Forall2_cons; [assumption|]). apply Forall2_nil.
Qed.

End Facts.

End SEG_facts.

(** ** Exact real arithmetic *)

Section OnReals.

Local Open Scope R_scope.

Lemma Rgtb_true (x y : R) : Rgtb x y = true <-> x > y.
Proof. unfold Rgtb. destruct (Rgt_dec x y); split; auto; discriminate. Qed.

Lemma Rgtb_false (x y : R) : Rgtb x y = false <-> x <= y.
Proof.
  unfold Rgtb. destruct (Rgt_dec x y); split; auto; try discriminate; lra.
Qed.

Lemma trunc_R_IZR (n : Z) : (0 <= n)%Z -> trunc_R (IZR n) = n.
Proof.
  intros Hn. unfold trunc_R.
  destruct (Rle_dec 0 (IZR n)) as [_|H].
  - symmetry. apply Int_part_spec. lra.
  - contradiction H. now apply IZR_le.
Qed.

(** [ln x <= k * a] as soon as [x <= (1 + a)^k], since [1 + a <= exp a]. *)
Lemma ln_le_pow (x a : R) (k : nat) :
  0 < x -> 0 < a -> x <= (1 + a) ^ k -> ln x <= INR k * a.
Proof.
  intros Hx Ha Hle.
  assert (H1 : (1 + a) ^ k <= exp a ^ k).
  { apply pow_incr. split; [lra | apply exp_ineq1_le]. }
  assert (H2 : ln (exp a ^ k) = INR k * a).
  { rewrite ln_pow by apply exp_pos. now rewrite ln_exp. }
  rewrite <- H2.
  destruct (Rle_lt_or_eq_dec x (exp a ^ k)) as [Hlt | ->]; [lra| |lra].
  left. now apply ln_increasing.
Qed.

Lemma ln_IZR_le (T n : Z) (a : R) (k : nat) :
  (1 <= T <= n)%Z -> 0 < a -> IZR n <= (1 + a) ^ k ->
  ln (IZR T) <= INR k * a.
Proof.
  intros HT Ha Hn. apply ln_le_pow; auto.
  - apply IZR_lt. lia.
  - apply Rle_trans with (IZR n); [apply IZR_le; lia | exact Hn].
Qed.

(** [55 <= (5/4)^18], [65 <= (5/4)^19] and [300 <= (11/10)^62]. *)
Lemma ln_le_55 T : (1 <= T <= 55)%Z -> ln (IZR T) <= 4.5.
Proof.
  intros H. replace 4.5 with (INR 18 * / 4) by (simpl; lra).
  apply (ln_IZR_le T 55); [lia | lra |]. simpl. lra.
Qed.

Lemma ln_le_65 T : (1 <= T <= 65)%Z -> ln (IZR T) <= 4.75.
Proof.
  intros H. replace 4.75 with (INR 19 * / 4) by (simpl; lra).
  apply (ln_IZR_le T 65); [lia | lra |]. simpl. lra.
Qed.

Lemma ln_le_300 T : (1 <= T <= 300)%Z -> ln (IZR T) <= 6.2.
Proof.
  intros H. replace 6.2 with (INR 62 * / 10) by (simpl; lra).
  apply (ln_IZR_le T 300); [lia | lra |]. simpl. lra.
Qed.

End OnReals.

(** Tests on the target length, as inequalities. *)
Ltac tests_to_Z :=
  repeat match goal with
  | H : (_ <=? _)%Z = true |- _ => apply Z.leb_le in H
  | H : (_ <=? _)%Z = false |- _ => apply Z.leb_gt in H
  | H : (_ >? _)%Z = true |- _ => apply Z.gtb_lt in H
  | H : (_ >? _)%Z = false |- _ => rewrite Z.gtb_ltb in H; apply Z.ltb_ge in H
  end.

(** The bounds on [ln T] that the range of [T] gives. *)
Ltac ln_bounds T :=
  try (assert (ln (IZR T) <= 4.5)%R by (apply ln_le_55; lia));
  try (assert (ln (IZR T) <= 4.75)%R by (apply ln_le_65; lia));
  try (assert (ln (IZR T) <= 6.2)%R by (apply ln_le_300; lia)).

(** *** SEGparameters on the reals *)

Module SEG_real.

Import SEGparameters ConventionB SEG_facts.

Local Open Scope R_scope.

Implicit Types g x : globals R.

Ltac block :=
  intros;
  unfold diverse_2, diverse_5, diverse_10, diverse_25, diverse_40,
    narrow_2, narrow_5, narrow_10, narrow_25, narrow_40;
  cbn; repeat (split_if; cbn); auto.

Lemma diverse_K2_bound g :
  (5 <= target_length g <= 300)%Z ->
  Forall (fun x => K2 x <= 4.2) (computed (blocks DIVERSE) g).
Proof.
  intros HT.
  apply (seg_computed_Forall (fun x => target_length x = target_length g));
    [| |reflexivity].
  - intros b x Hin <-. now destruct (inputs_kept DIVERSE b x Hin).
  - intros b x Hin Hx. rewrite <- Hx in HT. cbn in Hin.
    repeat (destruct Hin as [<- | Hin];
            [block; tests_to_Z; ln_bounds (target_length x);
             unfold Q2R; cbn [Qnum Qden]; lra|]).
    contradiction.
Qed.

Lemma narrow_K2_bound g :
  (5 <= target_length g <= 300)%Z ->
  Forall (fun x => K2 x <= 4.2) (computed (blocks NARROW) g).
Proof.
  intros HT.
  assert (H : Forall (fun v : Z * Z * R * R * R => snd (fst v) <= 4.2)
                (map view (computed (blocks NARROW) g))).
  { rewrite narrow_rows. unfold narrow_row, narrow_table.
    repeat constructor; block; tests_to_Z; ln_bounds (target_length g);
      unfold Q2R; cbn [Qnum Qden]; lra. }
  rewrite Forall_map in H. exact H.
Qed.

Lemma K2_bound g :
  (5 <= target_length g <= 300)%Z ->
  Forall (fun x => K2 x <= 4.2) (computed (blocks (focus g)) g).
Proof.
  destruct (focus g); [apply diverse_K2_bound | apply narrow_K2_bound].
Qed.

(** With [K2] within its bound and the target length at least 5, the
    report looks at the upper bound and the special case only. *)
Lemma report_in_range x :
  (5 <= target_length x)%Z -> K2 x <= 4.2 -> report x = length_report x.
Proof.
  intros HT HK. unfold report, length_report, invalid.
  destruct (special x); [reflexivity|].
  replace (target_length x <? 5)%Z with false
    by (symmetry; apply Z.ltb_ge; lia).
  replace (K2 x >~ lit 4.2) with false; [now rewrite !orb_false_r|].
  symmetry. apply Rgtb_false. cbn. unfold Q2R. cbn [Qnum Qden]. lra.
Qed.

(** C7, amended.  Convention B, on exact reals: for every target length
    from 1 on and either focus, in every computed row [K1 <= K2]; with the
    DIVERSE focus [K1] is [K2] minus 0.2, 0.3 or 0.4, with the NARROW focus
    [K1] is [K2]. *)
Theorem SEG_K1_le_K2 g :
  (1 <= target_length g)%Z ->
  Forall (fun x => K1 x <= K2 x) (computed (blocks (focus g)) g)
  /\ Forall (fun x => K1 x = K2 x - 0.2 \/ K1 x = K2 x - 0.3
                      \/ K1 x = K2 x - 0.4)
       (computed (blocks DIVERSE) g)
  /\ Forall (fun x => K1 x = K2 x) (computed (blocks NARROW) g).
Proof.
  intros _.
  assert (Hd : Forall (fun x => K1 x = K2 x - 0.2 \/ K1 x = K2 x - 0.3
                                \/ K1 x = K2 x - 0.4)
                 (computed (blocks DIVERSE) g)).
  { eapply Forall_impl; [|apply (diverse_K1 g)].
    cbn. unfold Q2R. cbn [Qnum Qden].
    intros x [H | [H | H]]; rewrite H; [left | right; left | right; right];
      lra. }
  pose proof (narrow_K1 g) as Hn.
  split; [|split; assumption].
  destruct (focus g).
  - eapply Forall_impl; [|exact Hd]. cbn. intros x [H | [H | H]]; lra.
  - eapply Forall_impl; [|exact Hn]. cbn. intros x H; lra.
Qed.

(** C10.  Convention B, on exact reals: for a target length from 5 to 300
    every computed [K2] is at most 4.2, and, the flag [not_valid] clear as
    the program starts, each line of the calculation is the special NA
    line (DIVERSE, 40%, target length under 10), else the NA line when the
    target length is above the row's upper bound, else the parameters: the
    test [K2 > 4.2] decides no line. *)
Theorem SEG_K2_at_most_4_2 g :
  (5 <= target_length g <= 300)%Z -> not_valid g = 0%Z ->
  Forall (fun x => K2 x <= 4.2) (computed (blocks (focus g)) g)
  /\ written g (calculate g)
     = map length_report (computed (blocks (focus g)) g).
Proof.
  intros HT Hnv. split; [now apply K2_bound|].
  rewrite seg_calculate_written by assumption.
  apply map_ext_Forall.
  pose proof (K2_bound g HT) as HK.
  pose proof (seg_computed_inputs (focus g) g) as HI.
  rewrite Forall_forall in *.
  intros x Hx. destruct (HI x Hx) as (HTx & _).
  apply report_in_range; [lia | auto].
Qed.

End SEG_real.

(** *** fLPSparameters on the reals *)

Module fLPS_real.

Import fLPSparameters ConventionA fLPS_facts.

Local Open Scope R_scope.

(** The 2% row of the run [-f narrow -l 10] violates none of the bounds
    its NA marker names: the target length is within 5 and 100 and the
    exponent, -5.373, is not above -3. *)
Lemma narrow_10_names_nothing :
  named_bound_violated (narrow_2 (start (D:=R) 10 NARROW)) = false.
Proof.
  unfold named_bound_violated. cbn.
  apply Rgtb_false. unfold Q2R. cbn [Qnum Qden]. lra.
Qed.

(** C4, as stated, fails: in the run [-f narrow -l 10] of fLPSparameters
    the 2% row is reported NA, by the rule on NARROW and target lengths
    up to 10, and violates neither the length bound nor the threshold
    bound that the marker names. *)
Lemma fLPS_NA_marker_names_no_violated_bound :
  ~ Forall2 marker_names_violation
      (computed (blocks NARROW) (start (D:=R) 10 NARROW))
      (written (start 10 NARROW) (calculate (start 10 NARROW))).
Proof.
  rewrite narrow_10_written by reflexivity.
  cbn [blocks computed]. intros H.
  inversion H as [|x l xs ls Hhead _]; subst.
  specialize (Hhead eq_refl).
  rewrite narrow_10_names_nothing in Hhead. discriminate.
Qed.

End fLPS_real.

(** ** Both programs *)

Section Both.

Context {D : Type} {HD : CDouble D}.

(** C4, amended.  With the flag [not_valid] clear as the programs start:
    in Convention A every NA line is the one marker, which lists the length
    bounds and the threshold bound, and the row violates a listed bound or
    is invalid by a rule the marker does not list ([small_m < 5] or a rule
    on focus, coverage and target length); in Convention B every line that
    is not a row of parameters names a bound that the row violates. *)
Theorem NA_marker_lists_bounds
  (a : fLPSparameters.globals D) (b : SEGparameters.globals D) :
  fLPSparameters.not_valid a = 0 ->
  SEGparameters.not_valid b = 0 ->
  Forall2 (fun x l => fst l = fLPSparameters.fmt_NA ->
                      l = ConventionA.NA_line x
                      /\ (ConventionA.named_bound_violated x = true
                          \/ ConventionA.unnamed_rule x = true))
    (fLPSparameters.computed
       (fLPSparameters.blocks (fLPSparameters.focus a)) a)
    (fLPSparameters.written a (fLPSparameters.calculate a))
  /\ Forall2 ConventionB.marker_names_violation
       (SEGparameters.computed
          (SEGparameters.blocks (SEGparameters.focus b)) b)
       (SEGparameters.written b (SEGparameters.calculate b)).
Proof.
  intros Ha Hb. split.
  - now apply fLPS_facts.NA_marker.
  - now apply SEG_facts.seg_NA_marker.
Qed.

(** C8.  In both conventions, for every target length (so for those from
    5 to 300) and both focus modes, the calculation writes five lines, one
    per coverage level in the order 2, 5, 10, 25, 40, each the row's
    parameters or an NA line. *)
Theorem five_rows_in_coverage_order
  (a : fLPSparameters.globals D) (b : SEGparameters.globals D) :
  Forall2 ConventionA.row_for coverage_levels
    (fLPSparameters.written a (fLPSparameters.calculate a))
  /\ Forall2 ConventionB.row_for coverage_levels
       (SEGparameters.written b (SEGparameters.calculate b)).
Proof.
  split; [apply fLPS_facts.five_rows | apply SEG_facts.seg_five_rows].
Qed.

(** C9, amended.  In both programs, when [-l] is given an integer that
    fits a 32-bit int and is below 5 or above 300 (among [-f] options), the
    option loop writes the warning to standard error and leaves
    [target_length] at 15, and [main] goes on to the header, the
    calculation and the footer with these globals and exits with
    status 0. *)
Theorem l_out_of_range_becomes_15
  (n : Z) (pre post : list string) (argv0 : string) :
  in_int n -> n < 5 \/ 300 < n ->
  (exists g0 : fLPSparameters.globals D,
     fLPSparameters.target_length g0 = 15
     /\ fLPSparameters.stderr g0 = [(fLPSparameters.warn_l, [])]
     /\ fLPSparameters.main argv0
          (map opt_f pre ++ opt_l (Some n) :: map opt_f post)
        = (0, fLPSparameters.footer
                (fLPSparameters.calculate
                   (fLPSparameters.header argv0 g0))))
  /\ (exists g0 : SEGparameters.globals D,
        SEGparameters.target_length g0 = 15
        /\ SEGparameters.stderr g0 = [(SEGparameters.warn_l, [])]
        /\ SEGparameters.main argv0
             (map opt_f pre ++ opt_l (Some n) :: map opt_f post)
           = (0, SEGparameters.footer
                   (SEGparameters.calculate
                      (SEGparameters.header argv0 g0)))).
Proof.
  intros Hint Hn. split.
  - now apply fLPS_facts.main_l_out_of_range.
  - now apply SEG_facts.seg_main_l_out_of_range.
Qed.

End Both.

(** ** The theorems at concrete runs, on exact reals *)

(** The run [-f narrow -l 10] of fLPSparameters: five NA lines. *)
Lemma fLPS_row_NA_iff_invalid_witness :
  fLPSparameters.not_valid (fLPSparameters.start (D:=R) 10 NARROW) = 0
  /\ fLPSparameters.written (fLPSparameters.start 10 NARROW)
       (fLPSparameters.calculate (fLPSparameters.start 10 NARROW))
     = [(fLPSparameters.fmt_NA, [Int 2; Int 100]);
        (fLPSparameters.fmt_NA, [Int 5; Int 200]);
        (fLPSparameters.fmt_NA, [Int 10; Int 200]);
        (fLPSparameters.fmt_NA, [Int 25; Int 300]);
        (fLPSparameters.fmt_NA, [Int 40; Int 300])].
Proof.
  split; [reflexivity|].
  apply (proj2 (fLPS_facts.fLPS_row_NA_iff_invalid
                  (fLPSparameters.start 10 NARROW) eq_refl));
    reflexivity.
Defined.

(** The runs [-f narrow -l 10] of fLPSparameters and [-f diverse -l 9] of
    SEGparameters. *)
Lemma NA_marker_lists_bounds_witness :
  fLPSparameters.not_valid (fLPSparameters.start (D:=R) 10 NARROW) = 0
  /\ SEGparameters.not_valid (SEGparameters.start (D:=R) 9 DIVERSE) = 0
  /\ Forall2 (fun x l => fst l = fLPSparameters.fmt_NA ->
                         l = ConventionA.NA_line x
                         /\ (ConventionA.named_bound_violated x = true
                             \/ ConventionA.unnamed_rule x = true))
       (fLPSparameters.computed (fLPSparameters.blocks NARROW)
          (fLPSparameters.start 10 NARROW))
       (fLPSparameters.written (fLPSparameters.start 10 NARROW)
          (fLPSparameters.calculate (fLPSparameters.start 10 NARROW)))
  /\ Forall2 ConventionB.marker_names_violation
       (SEGparameters.computed (SEGparameters.blocks DIVERSE)
          (SEGparameters.start 9 DIVERSE))
       (SEGparameters.written (SEGparameters.start 9 DIVERSE)
          (SEGparameters.calculate (SEGparameters.start 9 DIVERSE))).
Proof.
  split; [reflexivity|]. split; [reflexivity|].
  exact (NA_marker_lists_bounds
           (fLPSparameters.start 10 NARROW)
           (SEGparameters.start 9 DIVERSE) eq_refl eq_refl).
Defined.

(** The run [-f diverse -l 9] of SEGparameters: five lines, the last one
    the NA line of the special case. *)
Lemma SEG_diverse_40_under_10_distinct_NA_witness :
  SEGparameters.focus (SEGparameters.start (D:=R) 9 DIVERSE) = DIVERSE
  /\ SEGparameters.target_length (SEGparameters.start (D:=R) 9 DIVERSE) < 10
  /\ exists l2 l5 l10 l25,
       SEGparameters.written (SEGparameters.start 9 DIVERSE)
         (SEGparameters.calculate (SEGparameters.start 9 DIVERSE))
       = [l2; l5; l10; l25; (SEGparameters.fmt_NA10, [Int 40; Int 300])].
Proof.
  split; [reflexivity|]. split; [reflexivity|].
  destruct (proj1 (SEG_facts.SEG_diverse_40_under_10_distinct_NA
                     (SEGparameters.start 9 DIVERSE) eq_refl eq_refl))
    as (l2 & l5 & l10 & l25 & E & _).
  exists l2, l5, l10, l25. rewrite E.
  cbn [to_int of_int R_double].
  rewrite trunc_R_IZR by lia. reflexivity.
Defined.

(** The runs [-l 4] of fLPSparameters and [-f narrow -l 301] of
    SEGparameters. *)
Lemma l_out_of_range_becomes_15_witness :
  in_int 4 /\ in_int 301
  /\ (4 < 5 \/ 300 < 4)
  /\ (exists g0 : fLPSparameters.globals R,
        fLPSparameters.target_length g0 = 15
        /\ fLPSparameters.stderr g0 = [(fLPSparameters.warn_l, [])]
        /\ fLPSparameters.main "./fLPSparameters" [opt_l (Some 4)]
           = (0, fLPSparameters.footer
                   (fLPSparameters.calculate
                      (fLPSparameters.header "./fLPSparameters" g0))))
  /\ (301 < 5 \/ 300 < 301)
  /\ (exists g0 : SEGparameters.globals R,
        SEGparameters.target_length g0 = 15
        /\ SEGparameters.stderr g0 = [(SEGparameters.warn_l, [])]
        /\ SEGparameters.main "./SEGparameters"
             [opt_f "narrow"; opt_l (Some 301)]
           = (0, SEGparameters.footer
                   (SEGparameters.calculate
                      (SEGparameters.header "./SEGparameters" g0)))).
Proof.
  assert (H4 : in_int 4) by (apply in_int_300_or_near; lia).
  assert (H301 : in_int 301) by (apply in_int_300_or_near; lia).
  split; [exact H4|]. split; [exact H301|].
  split; [left; reflexivity|]. split.
  - exact (proj1 (l_out_of_range_becomes_15 4 [] [] "./fLPSparameters"
                    H4 (or_introl eq_refl))).
  - split; [right; reflexivity|].
    exact (proj2 (l_out_of_range_becomes_15 301 ["narrow"] []
                    "./SEGparameters" H301 (or_intror eq_refl))).
Defined.

(** The run [-f narrow -l 20] of SEGparameters. *)
Lemma SEG_narrow_rows_follow_table_witness :
  SEGparameters.focus (SEGparameters.start (D:=R) 20 NARROW) = NARROW
  /\ SEGparameters.L
       (SEGparameters.calculate (SEGparameters.start (D:=R) 20 NARROW)) = 20
  /\ SEGparameters.K1
       (SEGparameters.calculate (SEGparameters.start (D:=R) 20 NARROW))
     = SEGparameters.K2
         (SEGparameters.calculate (SEGparameters.start (D:=R) 20 NARROW)).
Proof.
  split; [reflexivity|].
  destruct (SEG_facts.SEG_narrow_rows_follow_table
              (SEGparameters.start 20 NARROW) eq_refl)
    as (_ & _ & _ & _ & HL & HK).
  split; [exact HL | exact HK].
Defined.

(** The run [-l 15] of SEGparameters. *)
Lemma SEG_K1_le_K2_witness :
  (1 <= SEGparameters.target_length (SEGparameters.start (D:=R) 15 DIVERSE))
  /\ Forall (fun x => (SEGparameters.K1 x <= SEGparameters.K2 x)%R)
       (SEGparameters.computed (SEGparameters.blocks DIVERSE)
          (SEGparameters.start 15 DIVERSE)).
Proof.
  assert (H : 1 <= SEGparameters.target_length
                     (SEGparameters.start (D:=R) 15 DIVERSE))
    by (cbn; lia).
  split; [exact H|].
  exact (proj1 (SEG_real.SEG_K1_le_K2 (SEGparameters.start 15 DIVERSE) H)).
Defined.

(** The run [-f narrow -l 260] of SEGparameters: the 2% and 40% rows are
    above their upper bound, 250. *)
Lemma SEG_K2_at_most_4_2_witness :
  (5 <= 260 <= 300)
  /\ SEGparameters.not_valid (SEGparameters.start (D:=R) 260 NARROW) = 0
  /\ Forall (fun x => (SEGparameters.K2 x <= 4.2)%R)
       (SEGparameters.computed (SEGparameters.blocks NARROW)
          (SEGparameters.start 260 NARROW))
  /\ SEGparameters.written (SEGparameters.start 260 NARROW)
       (SEGparameters.calculate (SEGparameters.start 260 NARROW))
     = map ConventionB.length_report
         (SEGparameters.computed (SEGparameters.blocks NARROW)
            (SEGparameters.start 260 NARROW)).
Proof.
  split; [lia|]. split; [reflexivity|].
  apply (SEG_real.SEG_K2_at_most_4_2 (SEGparameters.start 260 NARROW));
    [cbn; lia | reflexivity].
Defined.

(** ** IEEE binary64 *)

(** The constants and [round] of the binary64 instance, on examples: the
    double nearest to 2.534; halfway cases go away from zero; the largest
    double below one half rounds to 0. *)
Example b64_lit_2_534 :
  Binary64.b64_lit 2.534 = 0x1.445a1cac08312p+1%float.
Proof. vm_compute. reflexivity. Qed.

Example b64_round_halfway :
  map (fun x => Binary64.b64_to_int (Binary64.b64_round x))
    [2.5%float; (-2.5)%float; 0x1.fffffffffffffp-2%float; 7.25%float]
  = [3; -3; 0; 7].
Proof. vm_compute. reflexivity. Qed.

(** On binary64, whatever libm computes for [pow] and [log], the 2% row of
    the run [-f narrow -l 10] of fLPSparameters is reported NA and violates
    none of the bounds that the marker names. *)
Lemma binary64_narrow_10_names_nothing
  (libm_pow : float -> float -> float) (libm_log : float -> float) :
  let HD := Binary64.double libm_pow libm_log in
  let g := fLPSparameters.narrow_2 (fLPSparameters.start 10 NARROW) in
  ConventionA.report g = (fLPSparameters.fmt_NA, [Int 2; Int 100])
  /\ ConventionA.named_bound_violated g = false.
Proof.
  intros HD g. split.
  - unfold ConventionA.report.
    replace (ConventionA.invalid g) with true; [reflexivity|].
    symmetry. apply orb_true_iff. right. reflexivity.
  - lazy. reflexivity.
Qed.

(** ** Runs out of the amended claims *)

(** [-l 4294967306]: [sscanf] stores 10, within 5 and 300, so the option
    loop keeps it and writes no warning. *)
Example fLPS_l_4294967306_stored_as_10 :
  sscanf_d 4294967306 = 10
  /\ fLPSparameters.options (D:=R) [opt_l (Some 4294967306)] 0
       fLPSparameters.initial
     = inl (fLPSparameters.set_target_length 10 fLPSparameters.initial, 0)
  /\ fLPSparameters.stderr
       (fLPSparameters.set_target_length 10 (fLPSparameters.initial (D:=R)))
     = [].
Proof.
  split; [reflexivity|]. split; [|reflexivity].
  rewrite fLPS_facts.options_l_stored.
  - reflexivity.
  - change (sscanf_d 4294967306) with 10. lia.
Qed.

(** C9, as stated, fails: 4294967306 is an integer above 300, and the run
    [-l 4294967306] of fLPSparameters goes on with the target length 10,
    not 15. *)
Lemma fLPS_l_beyond_int_not_15 :
  ~ (4294967306 < 5 \/ 300 < 4294967306 ->
     exists g0 : fLPSparameters.globals R,
       fLPSparameters.target_length g0 = 15
       /\ fLPSparameters.stderr g0 = [(fLPSparameters.warn_l, [])]
       /\ fLPSparameters.main "./fLPSparameters" [opt_l (Some 4294967306)]
          = (0, fLPSparameters.footer
                  (fLPSparameters.calculate
                     (fLPSparameters.header "./fLPSparameters" g0)))).
Proof.
  intros H. destruct (H (or_intror eq_refl)) as (g0 & HT & _ & Hm).
  unfold fLPSparameters.main in Hm.
  rewrite (proj1 (proj2 fLPS_l_4294967306_stored_as_10)) in Hm.
  change (negb (0 =? 0)) with false in Hm. cbv iota in Hm.
  apply (f_equal snd) in Hm. cbn [snd] in Hm.
  apply (f_equal fLPSparameters.target_length) in Hm.
  rewrite !fLPS_facts.main_target_length, HT in Hm.
  discriminate Hm.
Qed.

Section Unset.

#[local] Existing Instance Binary64.double_negative.

(** Without [-l] the target length is -1: [pow] returns a NaN, its
    conversion gives [big_m] the least int, and [big_m - 2] wraps. *)
Example fLPS_unset_2_percent_row :
  let x := fLPSparameters.diverse_2 (fLPSparameters.initial (D:=float)) in
  fLPSparameters.big_m x = - 2147483648
  /\ fLPSparameters.small_m x = 2147483646.
Proof. vm_compute. split; reflexivity. Qed.

(** C1, as stated, fails: in the run of fLPSparameters without [-l], on
    binary64, the 2% row has [small_m = 2147483646], which is not
    [big_m - 2]. *)
Lemma fLPS_unset_small_m_not_tabulated :
  map fLPSparameters.view
    (fLPSparameters.computed (fLPSparameters.blocks DIVERSE)
       (fLPSparameters.initial (D:=float)))
  <> map (ConventionA.diverse_row (-1)) coverage_levels.
Proof.
  intros H.
  apply (f_equal (fun l => match l with
                           | r :: _ => ConventionA.row_small_m r
                           | [] => 0
                           end)) in H.
  vm_compute in H. discriminate H.
Qed.

(** C7, as stated, fails: in the run of SEGparameters without [-l], on
    binary64, [log] returns a NaN, [K2] and [K1] of the 2% row are NaNs,
    and [K1 <= K2] is false. *)
Lemma SEG_unset_K1_not_le_K2 :
  ~ Forall (fun x => PrimFloat.leb (SEGparameters.K1 x) (SEGparameters.K2 x)
                     = true)
      (SEGparameters.computed (SEGparameters.blocks DIVERSE)
         (SEGparameters.initial (D:=float))).
Proof.
  intros H. cbn [SEGparameters.blocks SEGparameters.computed] in H.
  apply Forall_inv in H. vm_compute in H. discriminate H.
Qed.

End Unset.

(** ** fLPSparameters: the option loop and [main] *)

Module fLPS_main.

Import fLPSparameters ConventionA fLPS_facts.

Section Facts.

Context {D : Type} {HD : CDouble D}.

Implicit Types g x : globals D.

(** *** The option loop, piece by piece *)

Lemma A_options_split pre : forall rest e g r,
  options (pre ++ rest) e g = inl r ->
  exists g1 e1,
    options pre e g = inl (g1, e1) /\ options rest e1 g1 = inl r.
Proof.
  induction pre as [|o pre IH]; intros rest e g r H; cbn in H |- *.
  - eauto.
  - destruct o as [|a|s|c|c]; try discriminate; apply IH in H; exact H.
Qed.

Lemma A_options_no_f opts : forall e g g' e',
  options opts e g = inl (g', e') ->
  existsb is_f opts = false ->
  focus g' = focus g.
Proof.
  induction opts as [|o opts IH]; intros e g g' e' H Hf; cbn in H.
  - inversion H; subst; auto.
  - destruct o as [|a|[n|]|c|c]; try discriminate; cbn in Hf;
      apply IH in H; auto; rewrite H; repeat (split_if; cbn); auto.
Qed.




Lemma A_options_h opts : forall e g,
  existsb is_h opts = true ->
  exists g1, options opts e g = inr (print_help g1) /\ stdout g1 = stdout g.
Proof.
  induction opts as [|o opts IH]; intros e g Hh; cbn in Hh.
  - discriminate.
  - destruct o as [|a|[n|]|c|c]; cbn in Hh |- *;
      try (eexists; split; reflexivity);
      match goal with
      | |- exists g1, options opts ?e' ?g' = _ /\ _ =>
          destruct (IH e' g' Hh) as (g1 & -> & Hout);
            exists g1; split; [reflexivity|]; rewrite Hout;
            repeat (split_if; cbn); reflexivity
      end.
Qed.

Lemma A_options_no_h opts : forall e g,
  existsb is_h opts = false ->
  exists g1 e1, options opts e g = inl (g1, e1).
Proof.
  induction opts as [|o opts IH]; intros e g Hh; cbn in Hh |- *.
  - eauto.
  - destruct o as [|a|s|c|c]; try discriminate; apply IH; exact Hh.
Qed.



(** [errflg] counts the entries that are errors. *)
Lemma A_options_errflg opts : forall e g g1 e1,
  options opts e g = inl (g1, e1) ->
  e <= e1
  /\ (existsb is_error opts = false -> e1 = e)
  /\ (existsb is_error opts = true -> e < e1).
Proof.
  induction opts as [|o opts IH]; intros e g g1 e1 H; cbn in H.
  - inversion H; subst. repeat split; try lia. discriminate.
  - destruct o as [|a|s|c|c]; try discriminate; apply IH in H;
      destruct H as (H1 & H2 & H3); cbn; repeat split; auto; try lia.
    all: intros Hx; try (apply H2 in Hx); lia.
Qed.

(** *** The streams *)

Lemma A_call_output_stderr g : stderr (call_output g) = stderr g.
Proof. rewrite call_output_eq. destruct (invalid g); reflexivity. Qed.

Lemma A_blocks_stderr f b g : In b (blocks f) -> stderr (b g) = stderr g.
Proof.
  intros Hin. destruct f; cbn in Hin;
    repeat (destruct Hin as [<- | Hin];
            [unfold diverse_2, diverse_5, diverse_10, diverse_25, diverse_40,
               narrow_2, narrow_5, narrow_10, narrow_25, narrow_40;
             cbn; repeat (split_if; cbn); reflexivity|]);
    contradiction.
Qed.

Lemma A_run_stderr bs : forall g,
  (forall b x, In b bs -> stderr (b x) = stderr x) ->
  stderr (run bs g) = stderr g.
Proof.
  induction bs as [|b bs IH]; intros g H; cbn; [reflexivity|].
  rewrite IH, A_call_output_stderr, H; cbn; auto.
  intros b' x Hin. apply H. now right.
Qed.

Lemma A_calculate_streams g :
  stdout (calculate g) = stdout g ++ written g (calculate g)
  /\ stderr (calculate g) = stderr g.
Proof.
  unfold calculate. split.
  - rewrite run_written by apply blocks_frame.
    apply run_stdout, blocks_frame.
  - apply A_run_stderr. intros b x. apply A_blocks_stderr.
Qed.

(** *** [main] *)

(** With [-h] among the options, [main] prints the help and leaves with
    status 0, nothing on standard output. *)
Lemma A_main_help argv0 opts :
  existsb is_h opts = true ->
  exists g1,
    main argv0 opts = (0, print_help g1) /\ stdout (print_help g1) = [].
Proof.
  intros Hh. destruct (A_options_h opts 0 initial Hh) as (g1 & H & Hout).
  exists g1. unfold main. rewrite H. split; [reflexivity|].
  cbn. exact Hout.
Qed.

(** Without [-h] and with an option in error, [main] prints the help and
    leaves with status 1, nothing on standard output. *)
Lemma A_main_usage argv0 opts :
  existsb is_h opts = false -> existsb is_error opts = true ->
  exists g1,
    main argv0 opts = (1, print_help g1) /\ stdout (print_help g1) = [].
Proof.
  intros Hh He.
  destruct (A_options_no_h opts 0 initial Hh) as (g1 & e1 & H).
  destruct (A_options_errflg opts 0 initial g1 e1 H) as (_ & _ & Hlt).
  destruct (options_keep opts 0 initial g1 e1 H) as (_ & Hout).
  exists g1. unfold main. rewrite H.
  replace (e1 =? 0) with false by (symmetry; apply Z.eqb_neq; specialize (Hlt He); lia).
  split; [reflexivity|]. cbn. exact Hout.
Qed.

Lemma A_footer_streams g :
  stdout (footer g) = stdout g ++ stdout (footer (D:=D) initial)
  /\ stderr (footer g) = stderr g.
Proof. split; [cbn; now rewrite <- !app_assoc | reflexivity]. Qed.

Lemma A_header_streams argv0 g :
  stdout g = [] ->
  List.length (stdout (header argv0 g)) = 4%nat
  /\ nth_error (stdout (header argv0 g)) 0
     = Some ("\n%s has chosen the following parameters for target length %d and focus %s:\n\n",
             [argv0_plus_2 argv0; Int (target_length g);
              Str (focus_name (focus g))])
  /\ stderr (header argv0 g) = stderr g.
Proof.
  intros Hout. destruct g as [f]. cbn in Hout. subst.
  destruct f; cbn; auto.
Qed.

(** Without [-h] and without an option in error, [main] writes the
    header, the five rows and the footer and leaves with status 0. *)
Lemma A_main_run argv0 opts :
  existsb is_h opts = false -> existsb is_error opts = false ->
  exists g1,
    options opts 0 initial = inl (g1, 0)
    /\ stdout g1 = []
    /\ main argv0 opts = (0, footer (calculate (header argv0 g1)))
    /\ stdout (footer (calculate (header argv0 g1)))
       = stdout (header argv0 g1)
         ++ written (header argv0 g1) (calculate (header argv0 g1))
         ++ stdout (footer (D:=D) initial)
    /\ stderr (footer (calculate (header argv0 g1))) = stderr g1.
Proof.
  intros Hh He.
  destruct (A_options_no_h opts 0 initial Hh) as (g1 & e1 & H).
  destruct (A_options_errflg opts 0 initial g1 e1 H) as (_ & Heq & _).
  rewrite (Heq He) in H.
  destruct (options_keep opts 0 initial g1 0 H) as (_ & Hout).
  exists g1. split; [exact H|]. split; [exact Hout|].
  split; [unfold main; now rewrite H|].
  destruct (A_footer_streams (calculate (header argv0 g1))) as (-> & ->).
  destruct (A_calculate_streams (header argv0 g1)) as (-> & ->).
  destruct (A_header_streams argv0 g1 Hout) as (_ & _ & ->).
  split; [now rewrite <- app_assoc | reflexivity].
Qed.

End Facts.

End fLPS_main.

(** ** SEGparameters: the option loop and [main] *)

Module SEG_main.

Import SEGparameters ConventionB SEG_facts.

Section Facts.

Context {D : Type} {HD : CDouble D}.

Implicit Types g x : globals D.

(** *** The option loop, piece by piece *)

Lemma B_options_split pre : forall rest e g r,
  options (pre ++ rest) e g = inl r ->
  exists g1 e1,
    options pre e g = inl (g1, e1) /\ options rest e1 g1 = inl r.
Proof.
  induction pre as [|o pre IH]; intros rest e g r H; cbn in H |- *.
  - eauto.
  - destruct o as [|a|s|c|c]; try discriminate; apply IH in H; exact H.
Qed.

Lemma B_options_no_f opts : forall e g g' e',
  options opts e g = inl (g', e') ->
  existsb is_f opts = false ->
  focus g' = focus g.
Proof.
  induction opts as [|o opts IH]; intros e g g' e' H Hf; cbn in H.
  - inversion H; subst; auto.
  - destruct o as [|a|[n|]|c|c]; try discriminate; cbn in Hf;
      apply IH in H; auto; rewrite H; repeat (split_if; cbn); auto.
Qed.




Lemma B_options_h opts : forall e g,
  existsb is_h opts = true ->
  exists g1, options opts e g = inr (print_help g1) /\ stdout g1 = stdout g.
Proof.
  induction opts as [|o opts IH]; intros e g Hh; cbn in Hh.
  - discriminate.
  - destruct o as [|a|[n|]|c|c]; cbn in Hh |- *;
      try (eexists; split; reflexivity);
      match goal with
      | |- exists g1, options opts ?e' ?g' = _ /\ _ =>
          destruct (IH e' g' Hh) as (g1 & -> & Hout);
            exists g1; split; [reflexivity|]; rewrite Hout;
            repeat (split_if; cbn); reflexivity
      end.
Qed.

Lemma B_options_no_h opts : forall e g,
  existsb is_h opts = false ->
  exists g1 e1, options opts e g = inl (g1, e1).
Proof.
  induction opts as [|o opts IH]; intros e g Hh; cbn in Hh |- *.
  - eauto.
  - destruct o as [|a|s|c|c]; try discriminate; apply IH; exact Hh.
Qed.



(** [errflg] counts the entries that are errors. *)
Lemma B_options_errflg opts : forall e g g1 e1,
  options opts e g = inl (g1, e1) ->
  e <= e1
  /\ (existsb is_error opts = false -> e1 = e)
  /\ (existsb is_error opts = true -> e < e1).
Proof.
  induction opts as [|o opts IH]; intros e g g1 e1 H; cbn in H.
  - inversion H; subst. repeat split; try lia. discriminate.
  - destruct o as [|a|s|c|c]; try discriminate; apply IH in H;
      destruct H as (H1 & H2 & H3); cbn; repeat split; auto; try lia.
    all: intros Hx; try (apply H2 in Hx); lia.
Qed.

(** *** The streams *)

Lemma B_call_output_stderr g : stderr (call_output g) = stderr g.
Proof. rewrite seg_call_output_eq. destruct (invalid g); reflexivity. Qed.

Lemma B_blocks_stderr f b g : In b (blocks f) -> stderr (b g) = stderr g.
Proof.
  intros Hin. destruct f; cbn in Hin;
    repeat (destruct Hin as [<- | Hin];
            [unfold diverse_2, diverse_5, diverse_10, diverse_25, diverse_40,
               narrow_2, narrow_5, narrow_10, narrow_25, narrow_40;
             cbn; repeat (split_if; cbn); reflexivity|]);
    contradiction.
Qed.

Lemma B_run_stderr bs : forall g,
  (forall b x, In b bs -> stderr (b x) = stderr x) ->
  stderr (run bs g) = stderr g.
Proof.
  induction bs as [|b bs IH]; intros g H; cbn; [reflexivity|].
  rewrite IH, B_call_output_stderr, H; cbn; auto.
  intros b' x Hin. apply H. now right.
Qed.

Lemma B_calculate_streams g :
  stdout (calculate g) = stdout g ++ written g (calculate g)
  /\ stderr (calculate g) = stderr g.
Proof.
  unfold calculate. split.
  - rewrite seg_run_written by apply seg_blocks_frame.
    apply seg_run_stdout, seg_blocks_frame.
  - apply B_run_stderr. intros b x. apply B_blocks_stderr.
Qed.

(** *** [main] *)

(** With [-h] among the options, [main] prints the help and leaves with
    status 0, nothing on standard output. *)
Lemma B_main_help argv0 opts :
  existsb is_h opts = true ->
  exists g1,
    main argv0 opts = (0, print_help g1) /\ stdout (print_help g1) = [].
Proof.
  intros Hh. destruct (B_options_h opts 0 initial Hh) as (g1 & H & Hout).
  exists g1. unfold main. rewrite H. split; [reflexivity|].
  cbn. exact Hout.
Qed.

(** Without [-h] and with an option in error, [main] prints the help and
    leaves with status 1, nothing on standard output. *)
Lemma B_main_usage argv0 opts :
  existsb is_h opts = false -> existsb is_error opts = true ->
  exists g1,
    main argv0 opts = (1, print_help g1) /\ stdout (print_help g1) = [].
Proof.
  intros Hh He.
  destruct (B_options_no_h opts 0 initial Hh) as (g1 & e1 & H).
  destruct (B_options_errflg opts 0 initial g1 e1 H) as (_ & _ & Hlt).
  destruct (seg_options_keep opts 0 initial g1 e1 H) as (_ & Hout).
  exists g1. unfold main. rewrite H.
  replace (e1 =? 0) with false by (symmetry; apply Z.eqb_neq; specialize (Hlt He); lia).
  split; [reflexivity|]. cbn. exact Hout.
Qed.

Lemma B_footer_streams g :
  stdout (footer g) = stdout g ++ stdout (footer (D:=D) initial)
  /\ stderr (footer g) = stderr g.
Proof. split; [cbn; now rewrite <- !app_assoc | reflexivity]. Qed.

Lemma B_header_streams argv0 g :
  stdout g = [] ->
  List.length (stdout (header argv0 g)) = 4%nat
  /\ nth_error (stdout (header argv0 g)) 0
     = Some ("\n%s has chosen the following parameters for target length %d and focus %s:\n\n",
             [argv0_plus_2 argv0; Int (target_length g);
              Str (focus_name (focus g))])
  /\ stderr (header argv0 g) = stderr g.
Proof.
  intros Hout. destruct g as [f]. cbn in Hout. subst.
  destruct f; cbn; auto.
Qed.

(** Without [-h] and without an option in error, [main] writes the
    header, the five rows and the footer and leaves with status 0. *)
Lemma B_main_run argv0 opts :
  existsb is_h opts = false -> existsb is_error opts = false ->
  exists g1,
    options opts 0 initial = inl (g1, 0)
    /\ stdout g1 = []
    /\ main argv0 opts = (0, footer (calculate (header argv0 g1)))
    /\ stdout (footer (calculate (header argv0 g1)))
       = stdout (header argv0 g1)
         ++ written (header argv0 g1) (calculate (header argv0 g1))
         ++ stdout (footer (D:=D) initial)
    /\ stderr (footer (calculate (header argv0 g1))) = stderr g1.
Proof.
  intros Hh He.
  destruct (B_options_no_h opts 0 initial Hh) as (g1 & e1 & H).
  destruct (B_options_errflg opts 0 initial g1 e1 H) as (_ & Heq & _).
  rewrite (Heq He) in H.
  destruct (seg_options_keep opts 0 initial g1 0 H) as (_ & Hout).
  exists g1. split; [exact H|]. split; [exact Hout|].
  split; [unfold main; now rewrite H|].
  destruct (B_footer_streams (calculate (header argv0 g1))) as (-> & ->).
  destruct (B_calculate_streams (header argv0 g1)) as (-> & ->).
  destruct (B_header_streams argv0 g1 Hout) as (_ & _ & ->).
  split; [now rewrite <- app_assoc | reflexivity].
Qed.

End Facts.

End SEG_main.

(** ** fLPSparameters: what the rows depend on *)

Module fLPS_rows.

Import fLPSparameters ConventionA fLPS_facts VocabularyA.

Section Facts.

Context {D : Type} {HD : CDouble D}.

Implicit Types g x y : globals D.

(** Every block computes from the globals, not from the streams. *)
Lemma A_block_erase f b : In b (blocks f) ->
  forall x y, erase x = erase y -> erase (b x) = erase (b y).
Proof.
  intros Hin x y H. destruct x, y. cbn in H. inversion H; subst; clear H.
  destruct f; cbn in Hin;
    repeat (destruct Hin as [<- | Hin];
            [unfold diverse_2, diverse_5, diverse_10, diverse_25, diverse_40,
               narrow_2, narrow_5, narrow_10, narrow_25, narrow_40;
             cbn; repeat (split_if; cbn); reflexivity|]);
    contradiction.
Qed.

(** The first block assigns every global but the focus, the target length
    and the flag. *)
Lemma A_first_block_erase f :
  exists b1 rest,
    blocks f = b1 :: rest
    /\ forall x y,
         target_length x = target_length y -> focus x = focus y ->
         not_valid x = not_valid y ->
         erase (b1 x) = erase (b1 y).
Proof.
  destruct f; eexists _, _; (split; [reflexivity|]);
    intros x y; destruct x, y; cbn; intros; subst;
    unfold diverse_2, narrow_2; cbn; repeat (split_if; cbn);
    reflexivity.
Qed.

Lemma A_call_erase x y : erase x = erase y ->
  erase (call_output x) = erase (call_output y) /\ printed x = printed y.
Proof.
  intros H.
  assert (He : forall z, erase (call_output z)
                         = if invalid (erase z) then set_not_valid 1 (erase z)
                           else erase z).
  { intros z. rewrite call_output_eq.
    change (invalid (erase z)) with (invalid z).
    destruct (invalid z); reflexivity. }
  rewrite !He.
  change (printed x) with (printed (erase x)).
  change (printed y) with (printed (erase y)).
  now rewrite H.
Qed.

Lemma A_computed_erase bs :
  (forall b, In b bs ->
     forall x y, erase x = erase y -> erase (b x) = erase (b y)) ->
  forall x y, erase x = erase y ->
    map printed (computed bs x) = map printed (computed bs y).
Proof.
  induction bs as [|b bs IH]; intros Hb x y H; cbn; [reflexivity|].
  assert (H1 : erase (b x) = erase (b y)) by (apply Hb; cbn; auto).
  destruct (A_call_erase _ _ H1) as (H2 & ->). f_equal.
  apply IH; auto. intros b' Hin. apply Hb. now right.
Qed.

(** The five lines depend on the target length, the focus and the flag
    only. *)
Lemma A_rows_depend_on_inputs g g' :
  target_length g = target_length g' -> focus g = focus g' ->
  not_valid g = not_valid g' ->
  written g (calculate g) = written g' (calculate g').
Proof.
  intros HT Hf Hnv. unfold calculate.
  rewrite !run_written by apply blocks_frame. rewrite <- Hf.
  destruct (A_first_block_erase (focus g)) as (b1 & rest & Hbs & H1).
  assert (Hin : forall b, In b rest -> In b (blocks (focus g)))
    by (intros b Hb; rewrite Hbs; now right).
  rewrite Hbs. cbn [computed map].
  destruct (A_call_erase _ _ (H1 g g' HT Hf Hnv)) as (H2 & ->). f_equal.
  apply A_computed_erase; auto.
  intros b Hb. apply (A_block_erase (focus g)). auto.
Qed.

End Facts.

End fLPS_rows.

(** ** SEGparameters: what the rows depend on *)

Module SEG_rows.

Import SEGparameters ConventionB SEG_facts VocabularyB.

Section Facts.

Context {D : Type} {HD : CDouble D}.

Implicit Types g x y : globals D.

(** Every block computes from the globals, not from the streams. *)
Lemma B_block_erase f b : In b (blocks f) ->
  forall x y, erase x = erase y -> erase (b x) = erase (b y).
Proof.
  intros Hin x y H. destruct x, y. cbn in H. inversion H; subst; clear H.
  destruct f; cbn in Hin;
    repeat (destruct Hin as [<- | Hin];
            [unfold diverse_2, diverse_5, diverse_10, diverse_25, diverse_40,
               narrow_2, narrow_5, narrow_10, narrow_25, narrow_40, logL;
             cbn; repeat (split_if; cbn); reflexivity|]);
    contradiction.
Qed.

(** The first block assigns every global but the focus, the target length
    and the flag. *)
Lemma B_first_block_erase f :
  exists b1 rest,
    blocks f = b1 :: rest
    /\ forall x y,
         target_length x = target_length y -> focus x = focus y ->
         not_valid x = not_valid y ->
         erase (b1 x) = erase (b1 y).
Proof.
  destruct f; eexists _, _; (split; [reflexivity|]);
    intros x y; destruct x, y; cbn; intros; subst;
    unfold diverse_2, narrow_2, logL; cbn; repeat (split_if; cbn);
    reflexivity.
Qed.

Lemma B_call_erase x y : erase x = erase y ->
  erase (call_output x) = erase (call_output y) /\ printed x = printed y.
Proof.
  intros H.
  assert (He : forall z, erase (call_output z)
                         = if invalid (erase z) then set_not_valid 1 (erase z)
                           else erase z).
  { intros z. rewrite seg_call_output_eq.
    change (invalid (erase z)) with (invalid z).
    destruct (invalid z); reflexivity. }
  rewrite !He.
  change (printed x) with (printed (erase x)).
  change (printed y) with (printed (erase y)).
  now rewrite H.
Qed.

Lemma B_computed_erase bs :
  (forall b, In b bs ->
     forall x y, erase x = erase y -> erase (b x) = erase (b y)) ->
  forall x y, erase x = erase y ->
    map printed (computed bs x) = map printed (computed bs y).
Proof.
  induction bs as [|b bs IH]; intros Hb x y H; cbn; [reflexivity|].
  assert (H1 : erase (b x) = erase (b y)) by (apply Hb; cbn; auto).
  destruct (B_call_erase _ _ H1) as (H2 & ->). f_equal.
  apply IH; auto. intros b' Hin. apply Hb. now right.
Qed.

(** The five lines depend on the target length, the focus and the flag
    only. *)
Lemma B_rows_depend_on_inputs g g' :
  target_length g = target_length g' -> focus g = focus g' ->
  not_valid g = not_valid g' ->
  written g (calculate g) = written g' (calculate g').
Proof.
  intros HT Hf Hnv. unfold calculate.
  rewrite !seg_run_written by apply seg_blocks_frame. rewrite <- Hf.
  destruct (B_first_block_erase (focus g)) as (b1 & rest & Hbs & H1).
  assert (Hin : forall b, In b rest -> In b (blocks (focus g)))
    by (intros b Hb; rewrite Hbs; now right).
  rewrite Hbs. cbn [computed map].
  destruct (B_call_erase _ _ (H1 g g' HT Hf Hnv)) as (H2 & ->). f_equal.
  apply B_computed_erase; auto.
  intros b Hb. apply (B_block_erase (focus g)). auto.
Qed.

End Facts.

End SEG_rows.

(** ** Target lengths under 5 *)

Module fLPS_bounds.

Import fLPSparameters ConventionA fLPS_facts VocabularyA.

Ltac block :=
  intros;
  unfold diverse_2, diverse_5, diverse_10, diverse_25, diverse_40,
    narrow_2, narrow_5, narrow_10, narrow_25, narrow_40;
  cbn; repeat (split_if; cbn); auto.

Section Facts.

Context {D : Type} {HD : CDouble D}.

Implicit Types g x : globals D.

Lemma A_upper_bounds f g :
  map (fun x => (cov x, max_m x)) (computed (blocks f) g) = upper_bounds f.
Proof.
  rewrite (computed_map _ (fun _ p => p) (blocks f) (upper_bounds f));
    [apply map_id | apply blocks_frame |].
  destruct f; repeat constructor; block.
Qed.

Lemma A_below_5 g :
  target_length g < 5 ->
  written g (calculate g)
  = map (fun p : Z * Z => (fmt_NA, [Int (fst p); Int (snd p)]))
      (upper_bounds (focus g)).
Proof.
  intros HT. unfold calculate. rewrite run_written by apply blocks_frame.
  rewrite <- (A_upper_bounds (focus g) g), map_map.
  apply map_ext_Forall.
  eapply Forall_impl; [|apply (computed_inputs (focus g) g)].
  intros x (HTx & _). unfold printed, invalid.
  replace (target_length x <? 5) with true
    by (symmetry; apply Z.ltb_lt; lia).
  reflexivity.
Qed.

(** The threshold exponent of a row comes from the target length alone. *)
Lemma A_threshold_inputs f b x : In b (blocks f) ->
  threshold (b x) = threshold (b (start (target_length x) f))
  /\ cov (b x) = cov (b (start (target_length x) f)).
Proof.
  intros Hin. destruct f; cbn in Hin;
    repeat (destruct Hin as [<- | Hin]; [block|]); contradiction.
Qed.

End Facts.

End fLPS_bounds.

Module SEG_bounds.

Import SEGparameters ConventionB SEG_facts VocabularyB.

Ltac block :=
  intros;
  unfold diverse_2, diverse_5, diverse_10, diverse_25, diverse_40,
    narrow_2, narrow_5, narrow_10, narrow_25, narrow_40;
  cbn; repeat (split_if; cbn); auto.

Section Facts.

Context {D : Type} {HD : CDouble D}.

Implicit Types g x : globals D.

Lemma B_upper_bounds f g :
  map (fun x => (cov x, bound x)) (computed (blocks f) g)
  = map (fun p : Z * Z => (fst p, to_int (of_int (snd p)))) (upper_bounds f).
Proof.
  apply (seg_computed_map (fun _ => True) (fun x => (cov x, bound x))
           (fun _ (p : Z * Z) => (fst p, to_int (of_int (snd p)))));
    [apply seg_blocks_frame | auto | | exact I].
  unfold bound. destruct f; repeat constructor; block.
Qed.

Lemma B_below_5 g :
  target_length g < 5 ->
  written g (calculate g)
  = map (fun p : Z * Z =>
           (if focus_eqb (focus g) DIVERSE && (fst p =? 40) then fmt_NA10
            else fmt_NA,
            [Int (fst p); Int (to_int (of_int (snd p)))]))
      (upper_bounds (focus g)).
Proof.
  intros HT. unfold calculate. rewrite seg_run_written by apply seg_blocks_frame.
  transitivity
    (map (fun q : Z * Z =>
            (if focus_eqb (focus g) DIVERSE && (fst q =? 40) then fmt_NA10
             else fmt_NA, [@Int D (fst q); Int (snd q)]))
       (map (fun x => (cov x, bound x)) (computed (blocks (focus g)) g))).
  - rewrite map_map. apply map_ext_Forall.
    eapply Forall_impl; [|apply (seg_computed_inputs (focus g) g)].
    intros x (HTx & Hfx). unfold printed, special, invalid. rewrite Hfx.
    replace (target_length x <? 10) with true
      by (symmetry; apply Z.ltb_lt; lia).
    replace (target_length x <? 5) with true
      by (symmetry; apply Z.ltb_lt; lia).
    rewrite andb_true_r. cbn [orb fst snd].
    destruct (focus_eqb (focus g) DIVERSE && (cov x =? 40)); reflexivity.
  - rewrite B_upper_bounds, map_map. reflexivity.
Qed.

End Facts.

End SEG_bounds.

(** ** The threshold rule of fLPSparameters on binary64 *)

Lemma target_lengths_complete (T : Z) :
  5 <= T <= 300 -> In T target_lengths.
Proof.
  intros HT. unfold target_lengths.
  replace T with (Z.of_nat (Z.to_nat T)) by lia.
  apply in_map, in_seq. lia.
Qed.

Module fLPS_binary64.

Import fLPSparameters ConventionA fLPS_facts VocabularyA fLPS_bounds.

Section Libm.

Variables (libm_pow : float -> float -> float) (libm_log : float -> float).

#[local] Instance HD : CDouble float := Binary64.double libm_pow libm_log.

(** The test [threshold > -3.0], evaluated for the ten rows and the 296
    target lengths: the exponents are products and differences of doubles,
    each operation rounded to binary64, and no libm function takes
    part. *)
Lemma A_threshold_checked f :
  forallb (fun b =>
             forallb (fun T =>
                        Bool.eqb (threshold (b (start T f)) >~ lit (-3.0))
                          (threshold_fires f (cov (b (start T f))) T))
               target_lengths)
    (blocks f)
  = true.
Proof. destruct f; lazy; reflexivity. Qed.

Lemma A_threshold_rule g :
  5 <= target_length g <= 300 ->
  Forall (fun x => (threshold x >~ lit (-3.0))
                   = threshold_fires (focus g) (cov x) (target_length g))
    (computed (blocks (focus g)) g).
Proof.
  intros HT. apply computed_Forall; [apply blocks_frame|].
  intros b x Hin HTx Hfx.
  destruct (A_threshold_inputs (focus g) b x Hin) as (-> & ->).
  pose proof (A_threshold_checked (focus g)) as H.
  rewrite forallb_forall in H. specialize (H b Hin).
  rewrite forallb_forall in H.
  specialize (H (target_length g) (target_lengths_complete _ HT)).
  rewrite HTx. now apply eqb_prop.
Qed.

(** X8.  fLPSparameters on binary64, whatever libm computes for [pow] and
    [log]: for a target length from 5 to 300 the test [threshold > -3.0]
    holds of a computed row exactly for DIVERSE 25% up to target length
    15, DIVERSE 40% up to 13 and NARROW 5% up to 6. *)
Theorem fLPS_binary64_threshold_rule (g : globals float) :
  5 <= target_length g <= 300 ->
  Forall (fun x => (threshold x >~ lit (-3.0))
                   = threshold_fires (focus g) (cov x) (target_length g))
    (computed (blocks (focus g)) g)
  /\ (focus g = DIVERSE -> target_length g <= 15 ->
      nth_error (written g (calculate g)) 3
      = Some (fmt_NA, [Int 25; Int 300])).
Proof.
  intros HT. pose proof (A_threshold_rule g HT) as H.
  split; [exact H|].
  intros Hf H15. unfold calculate.
  rewrite run_written by apply blocks_frame.
  rewrite nth_error_map.
  pose proof (A_upper_bounds (focus g) g) as Hb.
  apply (f_equal (fun l => nth_error l 3)) in Hb.
  rewrite nth_error_map, Hf in Hb. rewrite Hf in H |- *.
  destruct (nth_error (computed (blocks DIVERSE) g) 3) as [x|] eqn:Hx;
    [|discriminate].
  cbn in Hb. inversion Hb as [[Hc Hm]].
  rewrite Forall_forall in H. specialize (H x (nth_error_In _ _ Hx)).
  rewrite Hc in H. cbn [threshold_fires] in H.
  replace (target_length g <=? 15) with true in H
    by (symmetry; apply Z.leb_le; lia).
  cbn [option_map]. unfold printed, invalid, NA_line.
  rewrite H, Hc, Hm, orb_true_r. reflexivity.
Qed.

End Libm.

End fLPS_binary64.

(** ** SEGparameters on the reals: the range of the thresholds *)

Module SEG_real_range.

Import SEGparameters ConventionB SEG_facts VocabularyB SEG_bounds.

Local Open Scope R_scope.

Implicit Types g x : globals R.

Ltac block :=
  intros;
  unfold diverse_2, diverse_5, diverse_10, diverse_25, diverse_40,
    narrow_2, narrow_5, narrow_10, narrow_25, narrow_40;
  cbn; repeat (split_if; cbn); auto.

(** [exp 1 <= 3]. *)
Lemma ln_ge_1 T : (3 <= T)%Z -> 1 <= ln (IZR T).
Proof.
  intros HT. rewrite <- (ln_exp 1) at 1.
  assert (H3 : exp 1 <= IZR T).
  { apply Rle_trans with 3; [apply exp_le_3 | apply IZR_le; lia]. }
  destruct (Rle_lt_or_eq_dec _ _ H3) as [Hlt | ->]; [|lra].
  left. apply ln_increasing; [apply exp_pos | exact Hlt].
Qed.

Lemma diverse_K1_positive g :
  (5 <= target_length g <= 300)%Z ->
  Forall (fun x => 0 < K1 x) (computed (blocks DIVERSE) g).
Proof.
  intros HT.
  apply (seg_computed_Forall (fun x => target_length x = target_length g));
    [| |reflexivity].
  - intros b x Hin <-. now destruct (inputs_kept DIVERSE b x Hin).
  - intros b x Hin Hx. rewrite <- Hx in HT. cbn in Hin.
    assert (1 <= ln (IZR (target_length x))) by (apply ln_ge_1; lia).
    repeat (destruct Hin as [<- | Hin];
            [block; unfold Q2R; cbn [Qnum Qden]; lra|]).
    contradiction.
Qed.

Lemma narrow_K1_positive g :
  (5 <= target_length g <= 300)%Z ->
  Forall (fun x => 0 < K1 x) (computed (blocks NARROW) g).
Proof.
  intros HT.
  assert (1 <= ln (IZR (target_length g))) by (apply ln_ge_1; lia).
  assert (H' : Forall (fun v : Z * Z * R * R * R => 0 < snd (fst (fst v)))
                 (map view (computed (blocks NARROW) g))).
  { rewrite narrow_rows. unfold narrow_row, narrow_table.
    repeat constructor; block; unfold Q2R; cbn [Qnum Qden]; lra. }
  rewrite Forall_map in H'. exact H'.
Qed.

(** X9.  SEGparameters on exact reals: for a target length from 5 to 300,
    in every computed row [0 < K1 <= K2 <= 4.2]. *)
Theorem SEG_thresholds_in_range g :
  (5 <= target_length g <= 300)%Z ->
  Forall (fun x => 0 < K1 x /\ K1 x <= K2 x /\ K2 x <= 4.2)
    (computed (blocks (focus g)) g).
Proof.
  intros HT.
  pose proof (SEG_real.K2_bound g HT) as H2.
  assert (H1 : Forall (fun x => 0 < K1 x) (computed (blocks (focus g)) g))
    by (destruct (focus g);
        [now apply diverse_K1_positive | now apply narrow_K1_positive]).
  assert (H12 : Forall (fun x => K1 x <= K2 x)
                  (computed (blocks (focus g)) g)).
  { destruct (focus g).
    - eapply Forall_impl; [|apply (diverse_K1 g)].
      cbn. unfold Q2R. cbn [Qnum Qden]. intros x [H | [H | H]]; lra.
    - eapply Forall_impl; [|apply (narrow_K1 g)]. cbn. intros x H; lra. }
  rewrite Forall_forall in *. auto.
Qed.

(** The upper bounds of the rows, as the calls receive them. *)
Lemma real_upper_bounds f g :
  map (fun x => (cov x, bound x)) (computed (blocks f) g) = upper_bounds f.
Proof.
  rewrite B_upper_bounds. destruct f; cbn;
    rewrite !trunc_R_IZR by lia; reflexivity.
Qed.

(** X10.  SEGparameters on exact reals, the flag [not_valid] clear as the
    program starts, target length from 5 to 300: the five lines are all
    rows of parameters exactly when the target length is from 10 to 200
    with the DIVERSE focus, and exactly when it is at most 250 with the
    NARROW focus. *)
Theorem SEG_all_rows_valid_iff g :
  (5 <= target_length g <= 300)%Z -> not_valid g = 0%Z ->
  (Forall (fun l => fst l = fmt_row) (written g (calculate g))
   <-> match focus g with
       | DIVERSE => (10 <= target_length g <= 200)%Z
       | NARROW => (target_length g <= 250)%Z
       end).
Proof.
  intros HT Hnv.
  pose proof (seg_computed_inputs (focus g) g) as HI.
  rewrite Forall_forall in HI.
  assert (Hw : written g (calculate g)
               = map length_report (computed (blocks (focus g)) g)).
  { rewrite seg_calculate_written by assumption.
    apply map_ext_Forall.
    pose proof (SEG_real.K2_bound g HT) as HK.
    rewrite Forall_forall in *.
    intros x Hx. destruct (HI x Hx) as (HTx & _).
    apply SEG_real.report_in_range; [lia | auto]. }
  set (Q := fun p : Z * Z =>
              focus_eqb (focus g) DIVERSE && (fst p =? 40)%Z
              && (target_length g <? 10)%Z = false
              /\ (target_length g <= snd p)%Z).
  assert (Hline : forall x, In x (computed (blocks (focus g)) g) ->
            (fst (length_report x) = fmt_row <-> Q (cov x, bound x))).
  { intros x Hx. destruct (HI x Hx) as (HTx & Hfx).
    unfold Q, length_report, special. cbn [fst snd].
    rewrite HTx, Hfx.
    destruct (focus_eqb (focus g) DIVERSE && (cov x =? 40)%Z
              && (target_length g <? 10)%Z);
      [split; [discriminate | intros (? & _); discriminate]|].
    destruct (target_length g >? bound x)%Z eqn:E.
    - apply Z.gtb_lt in E. split; [discriminate | intros (_ & ?); lia].
    - rewrite Z.gtb_ltb in E. apply Z.ltb_ge in E. cbn. tauto. }
  assert (Hiff : Forall (fun x => fst (length_report x) = fmt_row)
                   (computed (blocks (focus g)) g)
                 <-> Forall Q (upper_bounds (focus g))).
  { rewrite <- (real_upper_bounds (focus g) g), Forall_map.
    rewrite !Forall_forall.
    split; intros H x Hx; apply Hline; auto. }
  rewrite Hw, Forall_map, Hiff. unfold Q.
  destruct (focus g); cbn [upper_bounds];
    rewrite !Forall_cons_iff, Forall_nil_iff; cbn.
  - split.
    + intros ((_ & H1) & _ & _ & _ & (H5 & _) & _).
      apply Z.ltb_ge in H5. lia.
    + intros H. repeat split; try reflexivity; lia.
  - split.
    + intros ((_ & H1) & _). lia.
    + intros H. repeat split; try reflexivity; lia.
Qed.

End SEG_real_range.

(** ** fLPSparameters on the reals: the two window sizes *)

Module fLPS_real_windows.

Import fLPSparameters ConventionA fLPS_facts.

Local Open Scope R_scope.

Implicit Types g : globals R.

Ltac block :=
  intros;
  unfold diverse_2, diverse_5, diverse_10, diverse_25, diverse_40,
    narrow_2, narrow_5, narrow_10, narrow_25, narrow_40;
  cbn; repeat (split_if; cbn); auto.

(** Rounding to the nearest integer is monotone. *)
Lemma nearest_R x : 0 <= x -> trunc_R (round_R x) = Int_part (x + / 2).
Proof.
  intros Hx. unfold round_R.
  destruct (Rle_dec 0 x) as [_|H]; [|contradiction].
  apply trunc_R_IZR.
  change (Int_part (x + / 2)) with (Zfloor (x + / 2)).
  apply Zfloor_lub. lra.
Qed.

Lemma nearest_mono x y :
  0 <= x <= y -> (trunc_R (round_R x) <= trunc_R (round_R y))%Z.
Proof.
  intros (Hx & Hxy). rewrite !nearest_R by lra.
  change (Zfloor (x + / 2) <= Zfloor (y + / 2))%Z.
  apply Zfloor_le. lra.
Qed.

Lemma nearest_nonneg x : 0 <= x -> (0 <= trunc_R (round_R x))%Z.
Proof.
  intros Hx. rewrite nearest_R by exact Hx.
  change (0 <= Zfloor (x + / 2))%Z. apply Zfloor_lub. simpl. lra.
Qed.

(** The difference [big_m - k] of a [big_m] that is not negative does not
    wrap upwards. *)
Lemma wrapped_window (a T e : R) (k : Z) :
  0 <= a -> (0 <= k <= 1000)%Z ->
  (wrap_int (trunc_R (round_R (a * Rpower T e)) - k)
   <= trunc_R (round_R (a * Rpower T e)))%Z.
Proof.
  intros Ha Hk.
  assert (H : (0 <= trunc_R (round_R (a * Rpower T e)))%Z).
  { apply nearest_nonneg. apply Rmult_le_pos; [exact Ha|].
    left. apply exp_pos. }
  apply Z.le_trans with (trunc_R (round_R (a * Rpower T e)) - k)%Z; [|lia].
  apply wrap_int_le. change (2 ^ 31)%Z with 2147483648%Z. lia.
Qed.

(** [T^c <= r] when [T <= r^k] and [c <= 1/k]. *)
Lemma Rpower_root_bound (T c r : R) (k : nat) :
  1 <= T <= r ^ k -> 0 < r -> (0 < k)%nat -> 0 <= c <= / INR k ->
  Rpower T c <= r.
Proof.
  intros (HT1 & HTr) Hr Hk (Hc0 & Hck).
  assert (HINR : 0 < INR k) by (apply lt_0_INR; exact Hk).
  apply Rle_trans with (Rpower T (/ INR k)).
  { apply Rle_Rpower; [exact HT1 | exact Hck]. }
  apply Rle_trans with (Rpower (r ^ k) (/ INR k)).
  { apply Rle_Rpower_l; [left; now apply Rinv_0_lt_compat | lra]. }
  rewrite <- (Rpower_pow k r Hr), Rpower_mult.
  rewrite Rinv_r by lra. rewrite Rpower_1 by exact Hr. lra.
Qed.

(** The nearest integers of two power laws in [T], the second one
    dominating on [1 <= T <= r^k]. *)
Lemma window_order (a b p q r : R) (k : nat) (T : Z) :
  (1 <= T)%Z -> IZR T <= r ^ k -> 0 < r -> (0 < k)%nat ->
  0 < a -> a * r <= b -> 0 <= p - q <= / INR k ->
  (trunc_R (round_R (a * Rpower (IZR T) p))
   <= trunc_R (round_R (b * Rpower (IZR T) q)))%Z.
Proof.
  intros HT HTr Hr Hk Ha Hab Hpq.
  assert (H1 : 1 <= IZR T) by (apply IZR_le; exact HT).
  assert (HS : Rpower (IZR T) (p - q) <= r)
    by (apply (Rpower_root_bound _ _ _ k); auto).
  assert (HS0 : 0 < Rpower (IZR T) (p - q)) by apply exp_pos.
  assert (HP : 0 < Rpower (IZR T) q) by apply exp_pos.
  set (P := Rpower (IZR T) q) in *.
  set (S := Rpower (IZR T) (p - q)) in *.
  assert (Heq : Rpower (IZR T) p = P * S).
  { unfold P, S. rewrite <- Rpower_plus. f_equal. lra. }
  rewrite Heq. clearbody P S.
  assert (HaP : 0 < a * P) by (apply Rmult_lt_0_compat; lra).
  assert (H2 : a * P * S <= a * P * r)
    by (apply Rmult_le_compat_l; lra).
  assert (H3 : a * r * P <= b * P)
    by (apply Rmult_le_compat_r; lra).
  assert (H4 : 0 <= a * P * S) by (apply Rmult_le_pos; lra).
  apply nearest_mono. split; lra.
Qed.

(** X11.  fLPSparameters on exact reals: for every target length from 1
    on, in every computed row [small_m <= big_m], also where the two are
    separate power laws (DIVERSE, 25% and 40%, target length up to 105). *)
Theorem fLPS_small_m_le_big_m g :
  (1 <= target_length g)%Z ->
  Forall (fun x => (small_m x <= big_m x)%Z) (computed (blocks (focus g)) g).
Proof.
  intros HT. apply computed_Forall; [apply blocks_frame|].
  intros b x Hin HTx _. rewrite <- HTx in HT. clear HTx.
  destruct (focus g); cbn in Hin;
    repeat (destruct Hin as [<- | Hin];
            [block; tests_to_Z; try lia;
             try (apply wrapped_window;
                  [unfold Q2R; cbn [Qnum Qden]; lra | lia])|]);
    try contradiction.
  - apply (window_order _ _ _ _ 4 4); auto; try lia;
      unfold Q2R; cbn [Qnum Qden]; try lra.
    + apply Rle_trans with 105; [apply IZR_le; lia | simpl; lra].
    + simpl. lra.
  - apply (window_order _ _ _ _ 11 2); auto; try lia;
      unfold Q2R; cbn [Qnum Qden]; try lra.
    + apply Rle_trans with 105; [apply IZR_le; lia | simpl; lra].
    + simpl. lra.
Qed.

(** A power law of the table, rounded: between 0 and [12 * T]. *)
Lemma nearest_power_range (a e : R) (T : Z) :
  0 <= a <= 12 -> 0 <= e <= 1 -> (1 <= T)%Z ->
  (0 <= trunc_R (round_R (a * Rpower (IZR T) e)) <= 12 * T)%Z.
Proof.
  intros Ha He HT.
  assert (H1 : 1 <= IZR T) by (apply IZR_le; exact HT).
  assert (HP : 0 < Rpower (IZR T) e) by apply exp_pos.
  assert (HS : Rpower (IZR T) e <= IZR T).
  { apply (Rpower_root_bound _ _ _ 1); [simpl; lra | lra | lia | simpl; lra]. }
  assert (Hx : 0 <= a * Rpower (IZR T) e) by (apply Rmult_le_pos; lra).
  assert (Hy : a * Rpower (IZR T) e <= 12 * IZR T).
  { apply Rle_trans with (a * IZR T).
    - apply Rmult_le_compat_l; lra.
    - apply Rmult_le_compat_r; lra. }
  split; [now apply nearest_nonneg|].
  rewrite nearest_R by exact Hx.
  change (Zfloor (a * Rpower (IZR T) e + / 2) <= 12 * T)%Z.
  destruct (Zfloor_bound (a * Rpower (IZR T) e + / 2)) as (Hlo & _).
  assert (Hlt : IZR (Zfloor (a * Rpower (IZR T) e + / 2)) < IZR (12 * T + 1)).
  { rewrite plus_IZR, mult_IZR. simpl. lra. }
  apply lt_IZR in Hlt. lia.
Qed.

(** On the reals every [small_m] of the DIVERSE table fits an int, for the
    target lengths from 1 to 1000000. *)
Lemma real_table_fits (T : Z) :
  (1 <= T <= 1000000)%Z ->
  Forall (fun c => in_int (row_small_m (diverse_row (D:=R) T c)))
    coverage_levels.
Proof.
  intros HT.
  unfold coverage_levels, diverse_row, diverse_table, row_small_m, nearest,
    in_int.
  change (2 ^ 31)%Z with 2147483648%Z.
  repeat (apply Forall_cons; [|]); [..|apply Forall_nil];
    cbn; repeat (split_if; cbn);
    match goal with
    | |- context [trunc_R (round_R (?a * Rpower (IZR T) ?e))] =>
        assert (0 <= trunc_R (round_R (a * Rpower (IZR T) e)) <= 12 * T)%Z
          by (apply nearest_power_range;
              [unfold Q2R; cbn [Qnum Qden]; lra
              |unfold Q2R; cbn [Qnum Qden]; lra | lia])
    end; lia.
Qed.

End fLPS_real_windows.

(** ** The command line of both programs *)

Section CommandLine.

Context {D : Type} {HD : CDouble D}.

(** X1.  In both programs the focus after the option loop is the one the
    last [-f] selects: NARROW when its argument is exactly [narrow],
    DIVERSE for any other text. *)
Theorem last_f_selects_focus (pre post : list getopt_result) (a : string) :
  existsb is_f post = false ->
  (forall e (g g' : fLPSparameters.globals D) e',
     fLPSparameters.options (pre ++ opt_f a :: post) e g = inl (g', e') ->
     fLPSparameters.focus g' = read_focus a)
  /\ (forall e (g g' : SEGparameters.globals D) e',
        SEGparameters.options (pre ++ opt_f a :: post) e g = inl (g', e') ->
        SEGparameters.focus g' = read_focus a).
Proof.
  intros Hpost. split; intros e g g' e' H.
  - apply fLPS_main.A_options_split in H as (g1 & e1 & _ & H).
    cbn in H. apply fLPS_main.A_options_no_f in H; auto.
    rewrite H. unfold read_focus. now destruct (String.eqb a "narrow").
  - apply SEG_main.B_options_split in H as (g1 & e1 & _ & H).
    cbn in H. apply SEG_main.B_options_no_f in H; auto.
    rewrite H. unfold read_focus. now destruct (String.eqb a "narrow").
Qed.


(** X3.  In both programs, with [-h] among the options, [main] leaves with
    status 0 from the first [-h] on: it writes nothing to standard output,
    and the help text ends standard error, also when an option before it
    was in error. *)
Theorem help_exits_0 (argv0 : string) (opts : list getopt_result) :
  existsb is_h opts = true ->
  (exists g1 : fLPSparameters.globals D,
     fLPSparameters.main argv0 opts = (0, fLPSparameters.print_help g1)
     /\ fLPSparameters.stdout (fLPSparameters.print_help g1) = [])
  /\ (exists g1 : SEGparameters.globals D,
        SEGparameters.main argv0 opts = (0, SEGparameters.print_help g1)
        /\ SEGparameters.stdout (SEGparameters.print_help g1) = []).
Proof.
  intros Hh. split.
  - now apply fLPS_main.A_main_help.
  - now apply SEG_main.B_main_help.
Qed.

(** X4.  In both programs, without [-h] and with an unrecognized option or
    an option that lacks its value, [main] leaves with status 1: nothing
    on standard output, the help text at the end of standard error. *)
Theorem usage_error_exits_1 (argv0 : string) (opts : list getopt_result) :
  existsb is_h opts = false -> existsb is_error opts = true ->
  (exists g1 : fLPSparameters.globals D,
     fLPSparameters.main argv0 opts = (1, fLPSparameters.print_help g1)
     /\ fLPSparameters.stdout (fLPSparameters.print_help g1) = [])
  /\ (exists g1 : SEGparameters.globals D,
        SEGparameters.main argv0 opts = (1, SEGparameters.print_help g1)
        /\ SEGparameters.stdout (SEGparameters.print_help g1) = []).
Proof.
  intros Hh He. split.
  - now apply fLPS_main.A_main_usage.
  - now apply SEG_main.B_main_usage.
Qed.

(** X5.  In both programs, called by a name of at least two characters,
    without [-h] and without an option in error, [main] leaves with status
    0 and standard output is the four lines of the header (the first one
    with the program name less its first two characters, the target length
    and the focus), then one line per coverage level, in order, then the
    four lines of the footer; the calculation adds nothing to standard
    error. *)
Theorem run_writes_header_rows_footer
  (argv0 name : string) (opts : list getopt_result) :
  skip2 argv0 = Some name ->
  existsb is_h opts = false -> existsb is_error opts = false ->
  (exists (g1 : fLPSparameters.globals D) rows,
     fLPSparameters.options opts 0 fLPSparameters.initial = inl (g1, 0)
     /\ fst (fLPSparameters.main argv0 opts) = 0
     /\ fLPSparameters.stdout (snd (fLPSparameters.main argv0 opts))
        = fLPSparameters.stdout (fLPSparameters.header argv0 g1)
          ++ rows
          ++ fLPSparameters.stdout
               (fLPSparameters.footer (D:=D) fLPSparameters.initial)
     /\ List.length (fLPSparameters.stdout (fLPSparameters.header argv0 g1))
        = 4%nat
     /\ nth_error (fLPSparameters.stdout (fLPSparameters.header argv0 g1)) 0
        = Some ("\n%s has chosen the following parameters for target length %d and focus %s:\n\n",
                [Str name; Int (fLPSparameters.target_length g1);
                 Str (focus_name (fLPSparameters.focus g1))])
     /\ Forall2 ConventionA.row_for coverage_levels rows
     /\ List.length
          (fLPSparameters.stdout
             (fLPSparameters.footer (D:=D) fLPSparameters.initial)) = 4%nat
     /\ fLPSparameters.stderr (snd (fLPSparameters.main argv0 opts))
        = fLPSparameters.stderr g1)
  /\ (exists (g1 : SEGparameters.globals D) rows,
        SEGparameters.options opts 0 SEGparameters.initial = inl (g1, 0)
        /\ fst (SEGparameters.main argv0 opts) = 0
        /\ SEGparameters.stdout (snd (SEGparameters.main argv0 opts))
           = SEGparameters.stdout (SEGparameters.header argv0 g1)
             ++ rows
             ++ SEGparameters.stdout
                  (SEGparameters.footer (D:=D) SEGparameters.initial)
        /\ List.length (SEGparameters.stdout (SEGparameters.header argv0 g1))
           = 4%nat
        /\ nth_error (SEGparameters.stdout (SEGparameters.header argv0 g1)) 0
           = Some ("\n%s has chosen the following parameters for target length %d and focus %s:\n\n",
                   [Str name; Int (SEGparameters.target_length g1);
                    Str (focus_name (SEGparameters.focus g1))])
        /\ Forall2 ConventionB.row_for coverage_levels rows
        /\ List.length
             (SEGparameters.stdout
                (SEGparameters.footer (D:=D) SEGparameters.initial)) = 4%nat
        /\ SEGparameters.stderr (snd (SEGparameters.main argv0 opts))
           = SEGparameters.stderr g1).
Proof.
  intros Hname Hh He. split.
  - destruct (fLPS_main.A_main_run argv0 opts Hh He)
      as (g1 & Hopt & Hout & Hmain & Hstd & Herr).
    destruct (fLPS_main.A_header_streams argv0 g1 Hout) as (Hlen & Hfirst & _).
    unfold argv0_plus_2 in Hfirst. rewrite Hname in Hfirst.
    exists g1, (fLPSparameters.written (fLPSparameters.header argv0 g1)
                  (fLPSparameters.calculate (fLPSparameters.header argv0 g1))).
    rewrite Hmain. cbn [fst snd].
    repeat split; auto. apply fLPS_facts.five_rows.
  - destruct (SEG_main.B_main_run argv0 opts Hh He)
      as (g1 & Hopt & Hout & Hmain & Hstd & Herr).
    destruct (SEG_main.B_header_streams argv0 g1 Hout) as (Hlen & Hfirst & _).
    unfold argv0_plus_2 in Hfirst. rewrite Hname in Hfirst.
    exists g1, (SEGparameters.written (SEGparameters.header argv0 g1)
                  (SEGparameters.calculate (SEGparameters.header argv0 g1))).
    rewrite Hmain. cbn [fst snd].
    repeat split; auto. apply SEG_facts.seg_five_rows.
Qed.

End CommandLine.

(** ** The rows of both programs *)

Section Rows.

Context {D : Type} {HD : CDouble D}.

(** X6.  In both programs a target length under 5, as when [-l] is not
    given and [target_length] is still -1, makes every one of the five
    lines an NA line, with the bound of its row; in SEGparameters with the
    DIVERSE focus the 40% line is the one that names [target length <10]. *)
Theorem below_5_all_NA
  (a : fLPSparameters.globals D) (b : SEGparameters.globals D) :
  fLPSparameters.target_length a < 5 ->
  SEGparameters.target_length b < 5 ->
  fLPSparameters.written a (fLPSparameters.calculate a)
  = map (fun p : Z * Z =>
           (fLPSparameters.fmt_NA, [Int (fst p); Int (snd p)]))
      (VocabularyA.upper_bounds (fLPSparameters.focus a))
  /\ SEGparameters.written b (SEGparameters.calculate b)
     = map (fun p : Z * Z =>
              (if focus_eqb (SEGparameters.focus b) DIVERSE && (fst p =? 40)
               then SEGparameters.fmt_NA10 else SEGparameters.fmt_NA,
               [Int (fst p); Int (to_int (of_int (snd p)))]))
         (VocabularyB.upper_bounds (SEGparameters.focus b)).
Proof.
  intros Ha Hb. split.
  - now apply fLPS_bounds.A_below_5.
  - now apply SEG_bounds.B_below_5.
Qed.

(** X7.  In both programs the five lines of the calculation depend on the
    target length, the focus and the flag [not_valid] on entry only: what
    the globals hold otherwise, and what was written before, changes
    none of them. *)
Theorem rows_depend_on_inputs_only
  (a a' : fLPSparameters.globals D) (b b' : SEGparameters.globals D) :
  fLPSparameters.target_length a = fLPSparameters.target_length a' ->
  fLPSparameters.focus a = fLPSparameters.focus a' ->
  fLPSparameters.not_valid a = fLPSparameters.not_valid a' ->
  SEGparameters.target_length b = SEGparameters.target_length b' ->
  SEGparameters.focus b = SEGparameters.focus b' ->
  SEGparameters.not_valid b = SEGparameters.not_valid b' ->
  fLPSparameters.written a (fLPSparameters.calculate a)
  = fLPSparameters.written a' (fLPSparameters.calculate a')
  /\ SEGparameters.written b (SEGparameters.calculate b)
     = SEGparameters.written b' (SEGparameters.calculate b').
Proof.
  intros. split.
  - now apply fLPS_rows.A_rows_depend_on_inputs.
  - now apply SEG_rows.B_rows_depend_on_inputs.
Qed.

End Rows.

(** ** The further theorems at concrete runs *)

(** [-l 20 -f narow -l 30]: the misspelt focus is DIVERSE. *)
Lemma last_f_selects_focus_witness :
  existsb is_f [opt_l (Some 30)] = false
  /\ exists g' : fLPSparameters.globals R,
       fLPSparameters.options
         [opt_l (Some 20); opt_f "narow"; opt_l (Some 30)] 0
         fLPSparameters.initial = inl (g', 0)
       /\ fLPSparameters.focus g' = DIVERSE.
Proof.
  split; [reflexivity|]. eexists. split; [reflexivity|].
  exact (proj1 (last_f_selects_focus (D:=R) [opt_l (Some 20)]
                  [opt_l (Some 30)] "narow" eq_refl)
           0 _ _ 0 eq_refl).
Defined.


(** [-x -h]: status 0. *)
Lemma help_exits_0_witness :
  existsb is_h [opt_question "x"%char; opt_h] = true
  /\ exists g1 : fLPSparameters.globals R,
       fLPSparameters.main "./fLPSparameters" [opt_question "x"%char; opt_h]
       = (0, fLPSparameters.print_help g1)
       /\ fLPSparameters.stdout (fLPSparameters.print_help g1) = [].
Proof.
  split; [reflexivity|].
  exact (proj1 (help_exits_0 (D:=R) "./fLPSparameters"
                  [opt_question "x"%char; opt_h] eq_refl)).
Defined.

(** [-l 20 -x]: status 1. *)
Lemma usage_error_exits_1_witness :
  existsb is_h [opt_l (Some 20); opt_question "x"%char] = false
  /\ existsb is_error [opt_l (Some 20); opt_question "x"%char] = true
  /\ exists g1 : SEGparameters.globals R,
       SEGparameters.main "./SEGparameters"
         [opt_l (Some 20); opt_question "x"%char]
       = (1, SEGparameters.print_help g1)
       /\ SEGparameters.stdout (SEGparameters.print_help g1) = [].
Proof.
  split; [reflexivity|]. split; [reflexivity|].
  exact (proj2 (usage_error_exits_1 (D:=R) "./SEGparameters"
                  [opt_l (Some 20); opt_question "x"%char]
                  eq_refl eq_refl)).
Defined.

(** [-f narrow -l 120]: status 0 and thirteen lines. *)
Lemma run_writes_header_rows_footer_witness :
  skip2 "./SEGparameters" = Some "SEGparameters"
  /\ existsb is_h [opt_f "narrow"; opt_l (Some 120)] = false
  /\ existsb is_error [opt_f "narrow"; opt_l (Some 120)] = false
  /\ fst (SEGparameters.main (D:=R) "./SEGparameters"
            [opt_f "narrow"; opt_l (Some 120)]) = 0
  /\ List.length
       (SEGparameters.stdout
          (snd (SEGparameters.main (D:=R) "./SEGparameters"
                  [opt_f "narrow"; opt_l (Some 120)]))) = 13%nat.
Proof.
  split; [reflexivity|]. split; [reflexivity|]. split; [reflexivity|].
  destruct (proj2 (run_writes_header_rows_footer (D:=R) "./SEGparameters"
                     "SEGparameters" [opt_f "narrow"; opt_l (Some 120)]
                     eq_refl eq_refl eq_refl))
    as (g1 & rows & _ & H0 & Hout & Hlen & _ & Hrows & Hft & _).
  split; [exact H0|].
  rewrite Hout, !length_app, Hlen, Hft, <- (Forall2_length Hrows).
  reflexivity.
Defined.

(** No [-l], on binary64: the target length is -1, [pow] returns NaNs,
    five NA lines. *)
Lemma below_5_all_NA_witness :
  fLPSparameters.target_length
    (@fLPSparameters.initial float Binary64.double_negative) < 5
  /\ SEGparameters.target_length
       (@SEGparameters.initial float Binary64.double_negative) < 5
  /\ fLPSparameters.written
       (@fLPSparameters.initial float Binary64.double_negative)
       (@fLPSparameters.calculate float Binary64.double_negative
          (@fLPSparameters.initial float Binary64.double_negative))
     = [(fLPSparameters.fmt_NA, [Int 2; Int 100]);
        (fLPSparameters.fmt_NA, [Int 5; Int 200]);
        (fLPSparameters.fmt_NA, [Int 10; Int 250]);
        (fLPSparameters.fmt_NA, [Int 25; Int 300]);
        (fLPSparameters.fmt_NA, [Int 40; Int 300])].
Proof.
  split; [reflexivity|]. split; [reflexivity|].
  exact (proj1 (@below_5_all_NA float Binary64.double_negative
                  (@fLPSparameters.initial float Binary64.double_negative)
                  (@SEGparameters.initial float Binary64.double_negative)
                  eq_refl eq_refl)).
Defined.

(** The rows after the header are the rows without it. *)
Lemma rows_depend_on_inputs_only_witness :
  fLPSparameters.written
    (fLPSparameters.header "./fLPSparameters"
       (fLPSparameters.start (D:=R) 20 DIVERSE))
    (fLPSparameters.calculate
       (fLPSparameters.header "./fLPSparameters"
          (fLPSparameters.start 20 DIVERSE)))
  = fLPSparameters.written (fLPSparameters.start 20 DIVERSE)
      (fLPSparameters.calculate (fLPSparameters.start 20 DIVERSE)).
Proof.
  exact (proj1 (rows_depend_on_inputs_only (D:=R)
                  (fLPSparameters.header "./fLPSparameters"
                     (fLPSparameters.start 20 DIVERSE))
                  (fLPSparameters.start 20 DIVERSE)
                  (SEGparameters.start 20 DIVERSE)
                  (SEGparameters.start 20 DIVERSE)
                  eq_refl eq_refl eq_refl eq_refl eq_refl eq_refl)).
Defined.

(** [-f diverse -l 15] on binary64, with stand-ins for [pow] and [log]:
    the 25% line is NA. *)
Lemma fLPS_binary64_threshold_rule_witness :
  5 <= 15 <= 300
  /\ nth_error
       (fLPSparameters.written
          (@fLPSparameters.start float
             (fLPS_binary64.HD (fun x _ => x) (fun x => x)) 15 DIVERSE)
          (@fLPSparameters.calculate float
             (fLPS_binary64.HD (fun x _ => x) (fun x => x))
             (@fLPSparameters.start float
                (fLPS_binary64.HD (fun x _ => x) (fun x => x)) 15 DIVERSE)))
       3
     = Some (fLPSparameters.fmt_NA, [Int 25; Int 300]).
Proof.
  split; [lia|].
  apply (proj2 (fLPS_binary64.fLPS_binary64_threshold_rule
                  (fun x _ => x) (fun x => x)
                  (@fLPSparameters.start float
                     (fLPS_binary64.HD (fun x _ => x) (fun x => x))
                     15 DIVERSE)
                  ltac:(cbn; lia)));
    [reflexivity | cbn; lia].
Defined.

(** [-f diverse -l 20] of SEGparameters. *)
Lemma SEG_thresholds_in_range_witness :
  5 <= 20 <= 300
  /\ Forall (fun x => (0 < SEGparameters.K1 x)%R
                      /\ (SEGparameters.K1 x <= SEGparameters.K2 x)%R
                      /\ (SEGparameters.K2 x <= 4.2)%R)
       (SEGparameters.computed (SEGparameters.blocks DIVERSE)
          (SEGparameters.start 20 DIVERSE)).
Proof.
  split; [lia|].
  apply (SEG_real_range.SEG_thresholds_in_range
           (SEGparameters.start 20 DIVERSE)).
  cbn. lia.
Defined.

Lemma SEG_all_rows_valid_iff_witness :
  5 <= 20 <= 300
  /\ SEGparameters.not_valid (SEGparameters.start (D:=R) 20 DIVERSE) = 0
  /\ Forall (fun l => fst l = SEGparameters.fmt_row)
       (SEGparameters.written (SEGparameters.start 20 DIVERSE)
          (SEGparameters.calculate (SEGparameters.start 20 DIVERSE))).
Proof.
  split; [lia|]. split; [reflexivity|].
  apply (SEG_real_range.SEG_all_rows_valid_iff
           (SEGparameters.start 20 DIVERSE));
    [cbn; lia | reflexivity | cbn; lia].
Defined.

(** [-f diverse -l 50] of fLPSparameters. *)
Lemma fLPS_small_m_le_big_m_witness :
  1 <= 50
  /\ Forall (fun x => fLPSparameters.small_m x <= fLPSparameters.big_m x)
       (fLPSparameters.computed (fLPSparameters.blocks DIVERSE)
          (fLPSparameters.start (D:=R) 50 DIVERSE)).
Proof.
  split; [lia|].
  apply (fLPS_real_windows.fLPS_small_m_le_big_m
           (fLPSparameters.start 50 DIVERSE)).
  cbn. lia.
Defined.

(** [-f diverse -l 15] of fLPSparameters. *)
Lemma fLPS_diverse_rows_follow_table_witness :
  fLPSparameters.focus (fLPSparameters.start (D:=R) 15 DIVERSE) = DIVERSE
  /\ Forall (fun c => in_int (ConventionA.row_small_m
                                (ConventionA.diverse_row (D:=R) 15 c)))
       coverage_levels
  /\ fLPSparameters.view
       (fLPSparameters.calculate (fLPSparameters.start (D:=R) 15 DIVERSE))
     = ConventionA.diverse_row 15 40.
Proof.
  assert (H : Forall (fun c => in_int (ConventionA.row_small_m
                                         (ConventionA.diverse_row (D:=R) 15 c)))
                coverage_levels)
    by (apply fLPS_real_windows.real_table_fits; lia).
  split; [reflexivity|]. split; [exact H|].
  exact (proj2 (proj2 (fLPS_facts.fLPS_diverse_rows_follow_table
                         (fLPSparameters.start 15 DIVERSE) eq_refl H))).
Defined.
